(** * The authenticated API client of the Facebook analytics dashboard

    A shallow embedding of [frontend/src/utils/api.js] (the axios instance,
    its two interceptors and the [apiClient] wrappers) and of the auth store
    [stores/useAuthStore] (unnamed/part_002, a zustand store kept in local
    storage), followed by the properties of the token-refresh protocol.

    Conventions of the embedding.
    - An [async] function is a computation over the [World]: it either never
      settles ([None]), resolves or rejects.  Recursion through [api(...)] is
      bounded by a fuel argument; fuel that runs out stands for a promise
      that is still pending.
    - The network is an oracle: [server n request] is the outcome of the
      [n]-th request handed to the adapter, [clock n] the value of
      [Date.now()] read for it.
    - A call of an [async] function that is not awaited ([logout()] in the
      two [catch] blocks) hands its request to the adapter at once and parks
      the rest of its body in [pending]; [drain] resumes the parked bodies in
      the order of their requests.
    - JavaScript values are strings and objects; [None] stands for
      [null]/[undefined].  Assignments to [window.location.href] are only
      recorded.  The dynamic [import] of the store always succeeds. *)

From stdpp Require Import gmap strings list fin_maps pretty.
From Stdlib Require Import ZArith Lia.

Open Scope string_scope.
Open Scope Z_scope.

(** ** JavaScript values *)

#[warnings="-register-all"]
Inductive Json :=
| JStr (s : string)
| JObj (fields : list (string * Json)).

Coercion JStr : string >-> Json.

(** [!!v]: [null], [undefined] and the empty string are falsy. *)
Definition truthy (v : option Json) : bool :=
  match v with
  | Some (JStr s) => negb (String.eqb s "")
  | Some (JObj _) => true
  | None => false
  end.

(** [v || d] *)
Definition or_else (v : option Json) (d : Json) : Json :=
  match v with
  | Some j => if truthy v then j else d
  | None => d
  end.

(** [`${v}`] *)
Definition to_string (v : option Json) : string :=
  match v with
  | Some (JStr s) => s
  | Some (JObj _) => "[object Object]"
  | None => "undefined"
  end.

Fixpoint assoc (k : string) (fields : list (string * Json)) : option Json :=
  match fields with
  | [] => None
  | (k', v) :: rest => if String.eqb k k' then Some v else assoc k rest
  end.

(** [v?.k] *)
Definition prop (k : string) (v : option Json) : option Json :=
  match v with
  | Some (JObj fields) => assoc k fields
  | _ => None
  end.

(** ** Requests, responses and errors *)

Inductive Method := GET | POST | PUT | DELETE.

Inductive Param :=
| PNum (z : Z)
| PStr (s : string).

(** The axios request config; [_retry] is the flag the response interceptor
    sets on it. *)
Record Config := mkConfig {
  url : string;
  method : Method;
  params : gmap string Param;
  headers : gmap string string;
  data : option Json;
  _retry : bool;
}.

Record Response := mkResponse {
  status : Z;
  resp_headers : gmap string string;
  resp_data : option Json;
}.

(** What the adapter gets back: a response, or nothing (the request failed
    on the network, with the message of the error). *)
Inductive Outcome :=
| Answered (r : Response)
| NoResponse (message : string).

(** A thrown value: axios errors carry [config] and, when the server
    answered, [response]; plain [Error]s carry only [message]. *)
Record Err := mkErr {
  err_config : option Config;
  err_response : option Response;
  err_message : string;
}.

Inductive Settled (A : Type) :=
| Resolved (a : A)
| Rejected (e : Err).
Arguments Resolved {A} a.
Arguments Rejected {A} e.

(** ** The session and the rest of the mutable world *)

(** The state of [useAuthStore] (unnamed/part_002, lines 10-14). *)
Record Store := mkStore {
  user : option Json;
  accessToken : option Json;
  refreshToken : option Json;
  isAuthenticated : bool;
  isLoading : bool;
}.

Inductive Toast :=
| ToastError (message : Json)
| ToastSuccess (message : Json).

Record World := mkWorld {
  store : Store;
  (* api.defaults.headers.common['Authorization'] *)
  authorization : option string;
  toasts : list Toast;
  (* the last value assigned to window.location.href *)
  location : option string;
  (* arguments of console.error *)
  console : list Err;
  (* the requests handed to the adapter, oldest first *)
  sent : list Config;
  (* requests of calls that were not awaited, with their outcome *)
  pending : list (Config * Outcome);
}.

Definition set_store (f : Store → Store) (w : World) : World :=
  mkWorld (f (store w)) (authorization w) (toasts w) (location w)
          (console w) (sent w) (pending w).

Definition set_authorization (a : option string) (w : World) : World :=
  mkWorld (store w) a (toasts w) (location w) (console w) (sent w) (pending w).

Definition toast (t : Toast) (w : World) : World :=
  mkWorld (store w) (authorization w) (toasts w ++ [t]) (location w)
          (console w) (sent w) (pending w).

Definition set_location (href : string) (w : World) : World :=
  mkWorld (store w) (authorization w) (toasts w) (Some href)
          (console w) (sent w) (pending w).

Definition console_error (e : Err) (w : World) : World :=
  mkWorld (store w) (authorization w) (toasts w) (location w)
          (console w ++ [e]) (sent w) (pending w).

Definition record_sent (c : Config) (w : World) : World :=
  mkWorld (store w) (authorization w) (toasts w) (location w)
          (console w) (sent w ++ [c]) (pending w).

Definition set_pending (p : list (Config * Outcome)) (w : World) : World :=
  mkWorld (store w) (authorization w) (toasts w) (location w)
          (console w) (sent w) p.

(** ** Computations *)

Definition M (A : Type) : Type := World → option (Settled A * World).

Definition ret {A} (a : A) : M A := fun w => Some (Resolved a, w).

Definition throw {A} (e : Err) : M A := fun w => Some (Rejected e, w).

Definition bind {A B} (m : M A) (f : A → M B) : M B := fun w =>
  match m w with
  | None => None
  | Some (Resolved a, w') => f a w'
  | Some (Rejected e, w') => Some (Rejected e, w')
  end.

(** [try { m } catch (e) { h e }] *)
Definition try_catch {A} (m : M A) (h : Err → M A) : M A := fun w =>
  match m w with
  | None => None
  | Some (Resolved a, w') => Some (Resolved a, w')
  | Some (Rejected e, w') => h e w'
  end.

Definition gets {A} (f : World → A) : M A := fun w => Some (Resolved (f w), w).

Definition modify (f : World → World) : M unit := fun w => Some (Resolved tt, f w).

Global Instance M_ret : MRet M := @ret.
Global Instance M_bind : MBind M := fun A B f m => bind m f.

Definition js_error (message : string) : Err := mkErr None None message.

(** A thrown [TypeError]: destructuring or reading a property of
    [undefined]. *)
Definition type_error (message : string) : Err := js_error message.

(** An object literal; a field whose value is [undefined] is left out when
    the body is serialised. *)
Definition obj (fields : list (string * option Json)) : Json :=
  JObj (omap (fun '(k, v) => pair k <$> v) fields).

(** [error.response?.data?.detail] *)
Definition detail (error : Err) : option Json :=
  prop "detail" (err_response error ≫= resp_data).

(** [error.response?.status === s] *)
Definition is_status (error : Err) (s : Z) : bool :=
  match err_response error with
  | Some r => status r =? s
  | None => false
  end.

(** ** The store's updates (unnamed/part_002) *)

Definition with_isLoading (b : bool) (s : Store) : Store :=
  mkStore (user s) (accessToken s) (refreshToken s) (isAuthenticated s) b.

Definition with_user (u : option Json) (s : Store) : Store :=
  mkStore u (accessToken s) (refreshToken s) (isAuthenticated s) (isLoading s).

Definition with_isAuthenticated (b : bool) (s : Store) : Store :=
  mkStore (user s) (accessToken s) (refreshToken s) b (isLoading s).

Definition initial_store : Store := mkStore None None None false false.

(** [`Bearer ${token}`] *)
Definition bearer (token : option Json) : string := "Bearer " +:+ to_string token.

(** Lines 28-37 (and 62-71, 94-103): the session of a sign-in, then
    [api.defaults.headers.common['Authorization']]. *)
Definition open_session (u access_token refresh_token : option Json) (w : World) : World :=
  set_authorization (Some (bearer access_token))
    (set_store (fun _ => mkStore u access_token refresh_token true false) w).

(** Lines 154-162: as above, [isLoading] is not part of the update. *)
Definition refresh_session (u access_token refresh_token : option Json) (w : World) : World :=
  set_authorization (Some (bearer access_token))
    (set_store (fun s => mkStore u access_token refresh_token true (isLoading s)) w).

(** Lines 126-135: [set] of the cleared state, then
    [delete api.defaults.headers.common['Authorization']]. *)
Definition close_session (w : World) : World :=
  set_authorization None (set_store (fun _ => initial_store) w).

(** Lines 192-200. *)
Definition initialize (w : World) : World :=
  let accessToken := accessToken (store w) in
  if truthy accessToken then
    set_store (with_isAuthenticated true)
      (set_authorization (Some (bearer accessToken)) w)
  else w.

(** ** The axios instance (api.js, lines 1-30) *)

(** What [axios.create] and the store leave in [api.defaults.headers].
    What the adapter does to the headers afterwards is not modelled. *)
Definition default_headers (auth : option string) : gmap string string :=
  let fixed : gmap string string :=
    {[ "Accept" := "application/json, text/plain, */*";
       "Content-Type" := "application/json" ]} in
  match auth with
  | Some a => <["Authorization" := a]> fixed
  | None => fixed
  end.

(** [Axios.prototype.request] merges the instance defaults under the config
    of the call: a header of the config wins over the default of that
    name. *)
Definition mergeConfig (w : World) (config : Config) : Config :=
  mkConfig (url config) (method config) (params config)
           (headers config ∪ default_headers (authorization w))
           (data config) (_retry config).

(** The request interceptor (lines 17-26):
    [config.params = { ...config.params, _t: Date.now() }]. *)
Definition request_interceptor (now : Z) (config : Config) : Config :=
  mkConfig (url config) (method config) (<["_t" := PNum now]> (params config))
           (headers config) (data config) (_retry config).

Definition validateStatus (s : Z) : bool := (200 <=? s) && (s <? 300).

(** The error axios rejects with.  Its [config] is the request as it was
    sent: the merged config, with the headers and the parameters it left
    with. *)
Definition axios_error (request : Config) (o : Outcome) : Err :=
  match o with
  | Answered r =>
      mkErr (Some request) (Some r)
            ("Request failed with status code " +:+ pretty (status r))
  | NoResponse message => mkErr (Some request) None message
  end.

Definition no_config : Config := mkConfig "" GET ∅ ∅ None false.

(** [api.get(url, config)], [api.post(url, data, config)], ...: the verb,
    the url and the body of the call replace those of [config]. *)
Definition call_config (m : Method) (u : string) (d : option Json) (config : Config) : Config :=
  mkConfig u m (params config) (headers config) d (_retry config).

Definition Api : Type := Config → M Response.

Definition api_get (api : Api) (u : string) (config : Config) : M Response :=
  api (call_config GET u (data config) config).

Definition api_delete (api : Api) (u : string) (config : Config) : M Response :=
  api (call_config DELETE u (data config) config).

Definition api_post (api : Api) (u : string) (d : option Json) (config : Config) : M Response :=
  api (call_config POST u d config).

Definition api_put (api : Api) (u : string) (d : option Json) (config : Config) : M Response :=
  api (call_config PUT u d config).

Section Client.

(** The outcome of the [n]-th request, and [Date.now()] when it leaves. *)
Variable server : nat → Config → Outcome.
Variable clock : nat → Z.

(** The request as the adapter gets it. *)
Definition prepare (config : Config) (w : World) : Config :=
  request_interceptor (clock (length (sent w))) (mergeConfig w config).

(** What comes back for it. *)
Definition answer (config : Config) (w : World) : Outcome :=
  server (length (sent w)) (prepare config w).

(** The world once it has left. *)
Definition handed (config : Config) (w : World) : World :=
  record_sent (prepare config w) w.

(** Hands a request to the adapter; its outcome is fixed from then on. *)
Definition dispatch (config : Config) (w : World) : Config * Outcome * World :=
  (prepare config w, answer config w, handed config w).

(** ** The auth store's actions (unnamed/part_002) *)

Record OpResult := mkOpResult {
  success : bool;
  error : option Json;
}.

(** [const { access_token, refresh_token, user } = response.data] *)
Definition destructure (response : Response) : M (option Json * option Json * option Json) :=
  match resp_data response with
  | None =>
      throw (type_error "Cannot destructure property 'access_token' of 'response.data' as it is undefined.")
  | Some d =>
      mret (prop "access_token" (Some d), prop "refresh_token" (Some d), prop "user" (Some d))
  end.

(** The common shape of [login], [register] and [loginWithFacebook]
    (lines 17-114), which differ in the endpoint, the body and the two
    messages. *)
Definition sign_in (api : Api) (path : string) (body : Json)
    (welcome failure : string) : M OpResult :=
  try_catch
    (modify (set_store (with_isLoading true));;
     response ← api_post api path (Some body) no_config;
     '(access_token, refresh_token, user) ← destructure response;
     modify (open_session user access_token refresh_token);;
     modify (toast (ToastSuccess welcome));;
     mret (mkOpResult true None))
    (fun error =>
     modify (set_store (with_isLoading false));;
     let message := or_else (detail error) failure in
     modify (toast (ToastError message));;
     mret (mkOpResult false (Some message))).

Definition login (api : Api) (email password : option Json) : M OpResult :=
  sign_in api "/auth/login" (obj [("email", email); ("password", password)])
          "Successfully logged in!" "Login failed".

Definition register (api : Api) (email password fullName : option Json) : M OpResult :=
  sign_in api "/auth/register"
          (obj [("email", email); ("password", password); ("full_name", fullName)])
          "Account created successfully!" "Registration failed".

Definition loginWithFacebook (api : Api) (accessToken : option Json) : M OpResult :=
  sign_in api "/auth/facebook" (obj [("access_token", accessToken)])
          "Successfully logged in with Facebook!" "Facebook login failed".

(** [logout] (lines 116-138) after its request has left: the [try] around
    the awaited call, then the clearing. *)
Definition logout_after (call : M Response) : M unit :=
  try_catch (_ ← call; mret tt)
            (fun error => modify (console_error error));;
  modify close_session;;
  modify (toast (ToastSuccess "Successfully logged out")).

Definition logout (api : Api) : M unit :=
  logout_after (api_post api "/auth/logout" None no_config).

(** The config of [api.post('/auth/logout')]. *)
Definition logout_request : Config :=
  call_config POST "/auth/logout" None no_config.

(** [logout()] without [await]: the request leaves now, the rest of the
    body waits in [pending] for its outcome. *)
Definition logout_detached (w : World) : World :=
  let '(request, o, w') := dispatch logout_request w in
  set_pending (pending w' ++ [(request, o)]) w'.

(** The config of
    [api.post('/auth/refresh', { refresh_token: refreshToken })]. *)
Definition refresh_request (w : World) : Config :=
  call_config POST "/auth/refresh"
    (Some (obj [("refresh_token", refreshToken (store w))])) no_config.

(** Lines 140-171. *)
Definition refreshAccessToken (api : Api) : M (option Json) :=
  try_catch
    (refreshToken ← gets (fun w => refreshToken (store w));
     if negb (truthy refreshToken) then
       throw (js_error "No refresh token available")
     else
       response ← api_post api "/auth/refresh"
                    (Some (obj [("refresh_token", refreshToken)])) no_config;
       '(access_token, newRefreshToken, user) ← destructure response;
       modify (refresh_session user access_token newRefreshToken);;
       mret access_token)
    (fun error =>
     modify logout_detached;;
     throw error).

(** Lines 173-189. *)
Definition updateProfile (api : Api) (profileData : option Json) : M OpResult :=
  try_catch
    (response ← api_put api "/users/profile" profileData no_config;
     modify (set_store (with_user (resp_data response)));;
     modify (toast (ToastSuccess "Profile updated successfully!"));;
     mret (mkOpResult true None))
    (fun error =>
     let message := or_else (detail error) "Profile update failed" in
     modify (toast (ToastError message));;
     mret (mkOpResult false (Some message))).

(** ** The response interceptor (api.js, lines 33-91) *)

(** [`Too many requests. Please try again in ${retryAfter || 60} seconds`] *)
Definition rate_limit_message (retryAfter : option string) : string :=
  "Too many requests. Please try again in " +:+
  match retryAfter with
  | Some s => if String.eqb s "" then pretty 60 else s
  | None => pretty 60
  end +:+ " seconds".

(** [error.response.headers['retry-after']] *)
Definition retry_after (error : Err) : option string :=
  err_response error ≫= fun r => resp_headers r !! "retry-after".

(** [error.response?.status >= 500] *)
Definition is_server_error (error : Err) : bool :=
  match err_response error with
  | Some r => 500 <=? status r
  | None => false
  end.

(** Lines 63-87: the five tests, in their order. *)
Definition notifications (error : Err) : list Toast :=
  (if is_status error 403
   then [ToastError "You do not have permission to perform this action"] else []) ++
  (if is_status error 404
   then [ToastError "The requested resource was not found"] else []) ++
  (if is_status error 429
   then [ToastError (rate_limit_message (retry_after error))] else []) ++
  (if is_server_error error
   then [ToastError "Server error. Please try again later"] else []) ++
  match err_response error with
  | Some _ => []
  | None => [ToastError "Network error. Please check your connection"]
  end.

Definition noticed (error : Err) (w : World) : World :=
  foldl (fun w t => toast t w) w (notifications error).

(** Lines 63-89: the notices, then [Promise.reject(error)]. *)
Definition notify (error : Err) : M Response :=
  modify (noticed error);;
  throw error.

Definition mark_retry (config : Config) : Config :=
  mkConfig (url config) (method config) (params config) (headers config)
           (data config) true.

(** The handler of a failed request (lines 37-90).  [originalRequest] is the
    config held by the error, so the flag set on it shows in the error that
    is rejected.  [return api(originalRequest)] leaves the [try] without
    awaiting: only a failure of the refresh reaches the [catch]. *)
Definition on_rejected (api : Api) (error : Err) : M Response :=
  if is_status error 401 then
    match err_config error with
    | None => throw (type_error "Cannot read properties of undefined (reading '_retry')")
    | Some config =>
        if _retry config then notify error
        else
          let originalRequest := mark_retry config in
          let error := mkErr (Some originalRequest) (err_response error) (err_message error) in
          fun w =>
            if truthy (refreshToken (store w)) then
              match refreshAccessToken api w with
              | None => None
              | Some (Resolved _, w1) => api originalRequest w1
              | Some (Rejected refreshError, w1) =>
                  Some (Rejected refreshError, set_location "/login" (logout_detached w1))
              end
            else notify error w
    end
  else notify error.

(** The outcome of a request through both handlers of the response
    interceptor (lines 33-91). *)
Definition settle (api : Api) (request : Config) (o : Outcome) : M Response :=
  match o with
  | Answered r =>
      if validateStatus (status r) then mret r
      else on_rejected api (axios_error request o)
  | NoResponse _ => on_rejected api (axios_error request o)
  end.

(** One call of [api(config)], the calls it makes itself being [api]. *)
Definition api_step (api : Api) : Api := fun config w =>
  let '(request, o, w') := dispatch config w in
  settle api request o w'.

Fixpoint api_call (fuel : nat) : Api :=
  match fuel with
  | O => fun _ _ => None
  | S fuel => api_step (api_call fuel)
  end.

(** ** Calls that were not awaited *)

(** The [i]-th parked [logout] gets its outcome and runs to its end. *)
Definition resume (api : Api) (i : nat) : M unit := fun w =>
  match pending w !! i with
  | None => Some (Resolved tt, w)
  | Some (request, o) =>
      logout_after (settle api request o) (set_pending (delete i (pending w)) w)
  end.

(** Resumes the parked calls, oldest first, until none is left. *)
Fixpoint drain (fuel : nat) (w : World) : option World :=
  match pending w with
  | [] => Some w
  | _ :: _ =>
      match fuel with
      | O => None
      | S fuel =>
          match resume (api_call fuel) 0 w with
          | Some (_, w') => drain fuel w'
          | None => None
          end
      end
  end.

(** ** [apiClient] (api.js, lines 97-153) *)

Record ClientResult := mkClientResult {
  res_data : option Json;
  res_success : bool;
  res_error : option Json;
}.

(** The body shared by the four wrappers:
    [error: error.response?.data?.detail || error.message]. *)
Definition handled (call : M Response) : M ClientResult :=
  try_catch
    (response ← call;
     mret (mkClientResult (resp_data response) true None))
    (fun error =>
     mret (mkClientResult None false
             (Some (or_else (detail error) (err_message error))))).

Definition apiClient_get (api : Api) (u : string) (config : Config) : M ClientResult :=
  handled (api_get api u config).

Definition apiClient_post (api : Api) (u : string) (d : option Json) (config : Config) : M ClientResult :=
  handled (api_post api u d config).

Definition apiClient_put (api : Api) (u : string) (d : option Json) (config : Config) : M ClientResult :=
  handled (api_put api u d config).

Definition apiClient_delete (api : Api) (u : string) (config : Config) : M ClientResult :=
  handled (api_delete api u config).

(** ** The life of the page *)

(** What [persist] keeps in local storage (part_002, lines 204-209) and
    merges over the initial state when the module is loaded; line 215 then
    calls [initialize]. *)
Definition partialize (s : Store) : Store :=
  mkStore (user s) (accessToken s) (refreshToken s) (isAuthenticated s) false.

Definition start : World :=
  initialize (mkWorld initial_store None [] None [] [] []).

Definition reload (w : World) : World :=
  initialize (mkWorld (partialize (store w)) None [] None [] (sent w) []).

(** The worlds the page can be in between two of its actions. *)
Inductive reachable : World → Prop :=
| reach_start : reachable start
| reach_reload w : reachable w → reachable (reload w)
| reach_initialize w : reachable w → reachable (initialize w)
| reach_login w fuel email password r w' :
    reachable w →
    login (api_call fuel) email password w = Some (r, w') → reachable w'
| reach_register w fuel email password fullName r w' :
    reachable w →
    register (api_call fuel) email password fullName w = Some (r, w') → reachable w'
| reach_loginWithFacebook w fuel token r w' :
    reachable w →
    loginWithFacebook (api_call fuel) token w = Some (r, w') → reachable w'
| reach_logout w fuel r w' :
    reachable w →
    logout (api_call fuel) w = Some (r, w') → reachable w'
| reach_refreshAccessToken w fuel r w' :
    reachable w →
    refreshAccessToken (api_call fuel) w = Some (r, w') → reachable w'
| reach_updateProfile w fuel profileData r w' :
    reachable w →
    updateProfile (api_call fuel) profileData w = Some (r, w') → reachable w'
| reach_request w fuel config r w' :
    reachable w →
    api_call fuel config w = Some (r, w') → reachable w'
| reach_resume w fuel i r w' :
    reachable w →
    resume (api_call fuel) i w = Some (r, w') → reachable w'.

End Client.

(** * The dashboard store (unnamed/part_003)

    A second zustand store.  [fetchDashboardData] is called without [await]
    by the two setters, so it is given in two halves: up to the moment its
    request has left, and from the outcome of that request on.  A [Date] is
    its number of milliseconds; the difference of two dates is taken to be
    exact (below 2^53). *)

Module useDashboardStore.

Record DateRange := mkDateRange {
  range_start : Z;
  range_end : Z;
}.

Record State := mkState {
  dashboardData : option Json;
  selectedPage : option Json;
  dateRange : DateRange;
  isLoading : bool;
  error : option Json;
}.

(** Lines 7-14: the state the store is created with, [now] and [now'] being
    the two readings of the clock, in that order. *)
Definition initial (now now' : Z) : State :=
  mkState None None (mkDateRange (now - 30 * 24 * 60 * 60 * 1000) now') false None.

Definition day : Z := 1000 * 60 * 60 * 24.

(** [Math.ceil((dateRange.end - dateRange.start) / (1000 * 60 * 60 * 24))] *)
Definition days (r : DateRange) : Z :=
  - ((range_start r - range_end r) / day).

(** Lines 60-66. *)
Definition clearDashboard (d : State) : State :=
  mkState None None (dateRange d) (isLoading d) None.

Section Store.

Variable server : nat → Config → Outcome.
Variable clock : nat → Z.

(** Lines 36-43: [set({ isLoading: true, error: null })], then the request
    [api.get(`/analytics/dashboard/${pageId}`, { params: { days } })]
    leaves. *)
Definition fetch_begin (pageId : option Json) (d : State) (w : World)
    : State * (Config * Outcome) * World :=
  let d1 := mkState (dashboardData d) (selectedPage d) (dateRange d) true None in
  let config :=
    call_config GET ("/analytics/dashboard/" +:+ to_string pageId) None
      (mkConfig "" GET {[ "days" := PNum (days (dateRange d1)) ]} ∅ None false) in
  let '(request, o, w1) := dispatch server clock config w in
  (d1, (request, o), w1).

(** Lines 45-57: what follows the [await]; each [set] merges into the state
    the store has by then. *)
Definition fetch_end (api : Api) (exchange : Config * Outcome) (d : State) (w : World)
    : option (State * World) :=
  match settle server clock api exchange.1 exchange.2 w with
  | None => None
  | Some (Resolved response, w1) =>
      Some (mkState (resp_data response) (selectedPage d) (dateRange d) false (error d),
            w1)
  | Some (Rejected e, w1) =>
      let message := or_else (detail e) "Failed to fetch dashboard data" in
      Some (mkState (dashboardData d) (selectedPage d) (dateRange d) false (Some message),
            toast (ToastError message) w1)
  end.

(** Lines 34-58, awaited. *)
Definition fetchDashboardData (api : Api) (pageId : option Json) (d : State) (w : World)
    : option (State * World) :=
  let '(d1, exchange, w1) := fetch_begin pageId d w in
  fetch_end api exchange d1 w1.

(** Lines 17-23; the result holds the request that is under way, if any. *)
Definition setSelectedPage (page : option Json) (d : State) (w : World)
    : State * World * option (Config * Outcome) :=
  let d1 := mkState (dashboardData d) page (dateRange d) (isLoading d) (error d) in
  if truthy page then
    let '(d2, exchange, w2) := fetch_begin (prop "page_id" page) d1 w in
    (d2, w2, Some exchange)
  else (d1, w, None).

(** Lines 25-32. *)
Definition setDateRange (start end_ : Z) (d : State) (w : World)
    : State * World * option (Config * Outcome) :=
  let d1 := mkState (dashboardData d) (selectedPage d) (mkDateRange start end_)
                    (isLoading d) (error d) in
  if truthy (selectedPage d1) then
    let '(d2, exchange, w2) := fetch_begin (prop "page_id" (selectedPage d1)) d1 w in
    (d2, w2, Some exchange)
  else (d1, w, None).

End Store.

End useDashboardStore.

(** * The routes (unnamed/part_001) *)

Inductive Page :=
| LoginPage | RegisterPage | DashboardPage | AnalyticsPage | PagesManagementPage
| PostsPage | ReportsPage | SettingsPage | NotFoundPage.

Inductive Element :=
| Render (page : Page)
| Navigate (to : string).

(** A route, or the routes under [ProtectedRoute] and [Layout] with their
    index. *)
Inductive Route :=
| Leaf (path : string) (element : Element)
| Protected (path : string) (index : Element) (children : list (string * Page)).

Inductive View :=
| LoadingSpinner
| Routes (routes : list Route).

(** What [App] returns for the [isAuthenticated] and [isLoading] of the auth
    store. *)
Definition App (s : Store) : View :=
  if isLoading s then LoadingSpinner
  else
    Routes
      [Leaf "/login"
         (if isAuthenticated s then Navigate "/dashboard" else Render LoginPage);
       Leaf "/register"
         (if isAuthenticated s then Navigate "/dashboard" else Render RegisterPage);
       Protected "/" (Navigate "/dashboard")
         [("dashboard", DashboardPage); ("analytics", AnalyticsPage);
          ("pages", PagesManagementPage); ("posts", PostsPage);
          ("reports", ReportsPage); ("settings", SettingsPage)];
       Leaf "*" (Render NotFoundPage)].

(** * Share links (frontend/src/utils/constants.js, lines 136-145)

    A string stands for the bytes of its UTF-8 form, which is what
    [encodeURIComponent] works on: it keeps the unreserved characters and
    writes every other byte as [%XX], in upper case.  (It throws on a string
    that is not well formed, which has no UTF-8 form.) *)

Module constants.

Import Stdlib.Strings.Ascii.

Definition unreserved (c : ascii) : bool :=
  let n := N_of_ascii c in
  ((65 <=? n)%N && (n <=? 90)%N) || ((97 <=? n)%N && (n <=? 122)%N)
  || ((48 <=? n)%N && (n <=? 57)%N)
  || existsb (Ascii.eqb c) (String.list_ascii_of_string "-_.!~*'()").

Definition hex_digit (n : N) : ascii :=
  if (n <? 10)%N then ascii_of_N (48 + n) else ascii_of_N (55 + n).

Definition percent (c : ascii) : string :=
  let n := N_of_ascii c in
  String "%" (String (hex_digit (n / 16)) (String (hex_digit (n mod 16)) "")).

Fixpoint encodeURIComponent (s : string) : string :=
  match s with
  | EmptyString => ""
  | String c rest =>
      (if unreserved c then String c "" else percent c) +:+ encodeURIComponent rest
  end.

Module SOCIAL_SHARE_URLS.

Definition facebook (url text : string) : string :=
  "https://www.facebook.com/sharer/sharer.php?u=" +:+ encodeURIComponent url.

Definition twitter (url text : string) : string :=
  "https://twitter.com/intent/tweet?url=" +:+ encodeURIComponent url
  +:+ "&text=" +:+ encodeURIComponent text.

Definition linkedin (url text : string) : string :=
  "https://www.linkedin.com/sharing/share-offsite/?url=" +:+ encodeURIComponent url.

Definition email (url text : string) : string :=
  "mailto:?subject=" +:+ encodeURIComponent text
  +:+ "&body=" +:+ encodeURIComponent url.

End SOCIAL_SHARE_URLS.

(** How often a character occurs in a string. *)
Definition occurrences (c : ascii) (s : string) : nat :=
  count_occ ascii_dec (String.list_ascii_of_string s) c.

End constants.

(** * The pattern of an e-mail address (frontend/src/utils/constants.js, line 58)

    A JavaScript string is a sequence of UTF-16 code units, and a pattern
    without the [u] flag reads it unit by unit.  A pattern between [^] and
    [$] (no [m] flag) accepts a string when the whole of it is in the
    language of the pattern; [test] decides that with derivatives. *)

Module RegExp.

Inductive Pattern : Type :=
  | Never
  | Empty
  | Class (accepts : N → bool)
  | Seq (r1 r2 : Pattern)
  | Alt (r1 r2 : Pattern)
  | Star (r : Pattern).

(** [r+] *)
Definition Plus (r : Pattern) : Pattern := Seq r (Star r).

Fixpoint nullable (r : Pattern) : bool :=
  match r with
  | Never => false
  | Empty => true
  | Class _ => false
  | Seq r1 r2 => nullable r1 && nullable r2
  | Alt r1 r2 => nullable r1 || nullable r2
  | Star _ => true
  end.

Fixpoint derive (c : N) (r : Pattern) : Pattern :=
  match r with
  | Never => Never
  | Empty => Never
  | Class accepts => if accepts c then Empty else Never
  | Seq r1 r2 =>
      if nullable r1 then Alt (Seq (derive c r1) r2) (derive c r2)
      else Seq (derive c r1) r2
  | Alt r1 r2 => Alt (derive c r1) (derive c r2)
  | Star r => Seq (derive c r) (Star r)
  end.

Fixpoint test (r : Pattern) (s : list N) : bool :=
  match s with
  | [] => nullable r
  | c :: s => test (derive c r) s
  end.

(** The language of a pattern. *)
Inductive matches : Pattern → list N → Prop :=
  | matches_Empty : matches Empty []
  | matches_Class accepts c : accepts c = true → matches (Class accepts) [c]
  | matches_Seq r1 r2 s1 s2 :
      matches r1 s1 → matches r2 s2 → matches (Seq r1 r2) (s1 ++ s2)%list
  | matches_Alt_l r1 r2 s : matches r1 s → matches (Alt r1 r2) s
  | matches_Alt_r r1 r2 s : matches r2 s → matches (Alt r1 r2) s
  | matches_Star_nil r : matches (Star r) []
  | matches_Star_more r s1 s2 :
      matches r s1 → matches (Star r) s2 → matches (Star r) (s1 ++ s2)%list.

(** [\s]: the white space and the line terminators of ECMAScript. *)
Definition white_space (c : N) : bool :=
  existsb (N.eqb c)
    [9; 10; 11; 12; 13; 32; 160; 5760; 8232; 8233; 8239; 8287; 12288; 65279]%N
  || ((8192 <=? c)%N && (c <=? 8202)%N).

End RegExp.

Module VALIDATION.

Import RegExp.

Definition at_sign : N := 64.
Definition dot : N := 46.

(** [[^\s@]] *)
Definition plain (c : N) : bool := negb (white_space c || (c =? at_sign)%N).

(** [/^[^\s@]+@[^\s@]+\.[^\s@]+$/] *)
Definition email : Pattern :=
  Seq (Plus (Class plain))
    (Seq (Class (N.eqb at_sign))
       (Seq (Plus (Class plain))
          (Seq (Class (N.eqb dot)) (Plus (Class plain))))).

End VALIDATION.

(** * What the properties are stated with *)

(** A computation keeps a property of the world. *)
Definition preserves (P : World → Prop) {A} (m : M A) : Prop :=
  ∀ w r w', P w → m w = Some (r, w') → P w'.

Definition unauthorized (o : Outcome) : bool :=
  match o with
  | Answered r => status r =? 401
  | NoResponse _ => false
  end.

(** The response of an outcome that resolves the request. *)
Definition succeeded (o : Outcome) : option Response :=
  match o with
  | Answered r => if validateStatus (status r) then Some r else None
  | NoResponse _ => None
  end.

Definition session_cleared (w : World) : Prop :=
  store w = initial_store ∧ authorization w = None.


(** ** Servers, sessions and requests of the concrete runs *)

(** A server that answers the [n]-th request with the [n]-th outcome of a
    script, and with [last] once the script is over. *)
Definition scripted (script : list Outcome) (last : Outcome) : nat → Config → Outcome :=
  fun n _ => nth n script last.

Definition wall_clock (n : nat) : Z := 1700000000000 + Z.of_nat n.

Definition answered (s : Z) (d : option Json) : Outcome :=
  Answered (mkResponse s ∅ d).

Definition new_tokens : Json :=
  JObj [("access_token", JStr "new"); ("refresh_token", JStr "r2");
        ("user", JStr "ann")].

(** A signed-in session whose access token the server no longer accepts. *)
Definition signed_in : World :=
  mkWorld (mkStore (Some (JStr "ann")) (Some (JStr "old")) (Some (JStr "r1")) true false)
          (Some "Bearer old") [] None [] [] [].

(** The same without a refresh token. *)
Definition no_refresh_token : World :=
  mkWorld (mkStore (Some (JStr "ann")) (Some (JStr "old")) None true false)
          (Some "Bearer old") [] None [] [] [].

Definition get_pages : Config := call_config GET "/pages" None no_config.

Definition refresh_accepted : nat → Config → Outcome :=
  scripted [answered 401 None; answered 200 (Some new_tokens)]
           (answered 200 (Some (JStr "pages"))).

Definition retry_refused : nat → Config → Outcome :=
  scripted [answered 401 None; answered 200 (Some new_tokens)]
           (answered 401 None).

Definition always_unauthorized : nat → Config → Outcome :=
  fun _ _ => answered 401 None.

(** The marked request of the run, and the world it is sent from. *)
Definition second_attempt : Config :=
  mark_retry (prepare wall_clock get_pages signed_in).

Definition after_refresh : World :=
  refresh_session (Some (JStr "ann")) (Some (JStr "new")) (Some (JStr "r2"))
    (handed wall_clock (refresh_request signed_in)
       (handed wall_clock get_pages signed_in)).

Definition refresh_refused : nat → Config → Outcome :=
  scripted [answered 401 None; answered 400 None] (answered 200 None).

Definition refresh_failure : Err :=
  axios_error (prepare wall_clock (refresh_request signed_in)
                 (handed wall_clock get_pages signed_in))
              (answered 400 None).

(** The world when [refreshAccessToken] has failed and started its logout. *)
Definition after_failed_refresh : World :=
  logout_detached refresh_refused wall_clock
    (handed wall_clock (refresh_request signed_in)
       (handed wall_clock get_pages signed_in)).

Definition rate_limited (retryAfter : string) : Response :=
  mkResponse 429 {[ "retry-after" := retryAfter ]} None.

Definition empty_detail : Response :=
  mkResponse 400 ∅ (Some (JObj [("detail", JStr "")])).

Definition sign_in_accepted : nat → Config → Outcome :=
  scripted [] (answered 200 (Some new_tokens)).

Definition logged_in : World :=
  toast (ToastSuccess "Successfully logged in!")
    (open_session (Some (JStr "ann")) (Some (JStr "new")) (Some (JStr "r2"))
       (handed wall_clock
          (call_config POST "/auth/login"
             (Some (obj [("email", Some (JStr "ann@example.org"));
                         ("password", Some (JStr "secret"))]))
             no_config)
          (set_store (with_isLoading true) start))).

(** Two pages and a server that answers the requests for their dashboards. *)
Definition page_one : option Json := Some (JObj [("page_id", JStr "p1")]).

Definition page_two : option Json := Some (JObj [("page_id", JStr "p2")]).

Definition insights_server : nat → Config → Outcome :=
  scripted [answered 200 (Some (JStr "insights of p1"));
            answered 200 (Some (JStr "insights of p2"))]
           (answered 500 None).

Definition fresh_dashboard : useDashboardStore.State :=
  useDashboardStore.initial 1700000000000 1700000000000.

(** The requests of the two selections, and the store and the world after
    each of them. *)
Definition dashboard_request (pageId : string) : Config :=
  call_config GET ("/analytics/dashboard/" +:+ pageId) None
    (mkConfig "" GET {[ "days" := PNum 30 ]} ∅ None false).

Definition one_selected : useDashboardStore.State :=
  useDashboardStore.mkState None page_one
    (useDashboardStore.dateRange fresh_dashboard) true None.

Definition two_selected : useDashboardStore.State :=
  useDashboardStore.mkState None page_two
    (useDashboardStore.dateRange fresh_dashboard) true None.

Definition one_asked : World := handed wall_clock (dashboard_request "p1") signed_in.

Definition two_asked : World := handed wall_clock (dashboard_request "p2") one_asked.

Definition forbidden : nat → Config → Outcome := scripted [] (answered 403 None).

Definition email_taken : nat → Config → Outcome :=
  scripted [] (answered 400 (Some (JObj [("detail", JStr "Email already registered")]))).

Definition profile_saved : nat → Config → Outcome :=
  scripted [] (answered 200 (Some (JStr "ann b."))).

(** * Properties *)

(** ** Invariants of the world

    A property of the world that every elementary update keeps is kept by
    every action of the store, by every request and by every resumed call,
    whatever the server answers and however much fuel there is. *)

Section Preservation.

Variable server : nat → Config → Outcome.
Variable clock : nat → Z.
Variable P : World → Prop.

Lemma preserves_ret {A} (a : A) : preserves P (mret a).
Proof. intros w r w' HP H. injection H as _ <-. exact HP. Qed.

Lemma preserves_throw {A} (e : Err) : preserves P (@throw A e).
Proof. intros w r w' HP H. injection H as _ <-. exact HP. Qed.

Lemma preserves_gets {A} (f : World → A) : preserves P (gets f).
Proof. intros w r w' HP H. injection H as _ <-. exact HP. Qed.

Lemma preserves_modify (f : World → World) :
  (∀ w, P w → P (f w)) → preserves P (modify f).
Proof. intros Hf w r w' HP H. injection H as _ <-. auto. Qed.

Lemma preserves_bind {A B} (m : M A) (f : A → M B) :
  preserves P m → (∀ a, preserves P (f a)) → preserves P (m ≫= f).
Proof.
  intros Hm Hf w r w' HP H.
  unfold mbind, M_bind, bind in H.
  destruct (m w) as [[[a|e] w1]|] eqn:E; try discriminate.
  - exact (Hf a w1 r w' (Hm _ _ _ HP E) H).
  - injection H as _ <-. exact (Hm _ _ _ HP E).
Qed.

Lemma preserves_try_catch {A} (m : M A) (h : Err → M A) :
  preserves P m → (∀ e, preserves P (h e)) → preserves P (try_catch m h).
Proof.
  intros Hm Hh w r w' HP H.
  unfold try_catch in H.
  destruct (m w) as [[[a|e] w1]|] eqn:E; try discriminate.
  - injection H as _ <-. exact (Hm _ _ _ HP E).
  - exact (Hh e w1 r w' (Hm _ _ _ HP E) H).
Qed.

Hypothesis P_toast : ∀ t w, P w → P (toast t w).
Hypothesis P_location : ∀ href w, P w → P (set_location href w).
Hypothesis P_console : ∀ e w, P w → P (console_error e w).
Hypothesis P_pending : ∀ p w, P w → P (set_pending p w).
Hypothesis P_sent : ∀ config w, P w → P (record_sent (prepare clock config w) w).
Hypothesis P_loading : ∀ b w, P w → P (set_store (with_isLoading b) w).
Hypothesis P_user : ∀ u w, P w → P (set_store (with_user u) w).
Hypothesis P_open : ∀ u a r w, P w → P (open_session u a r w).
Hypothesis P_refresh : ∀ u a r w, P w → P (refresh_session u a r w).
Hypothesis P_close : ∀ w, P w → P (close_session w).
Hypothesis P_initialize : ∀ w, P w → P (initialize w).

Lemma logout_detached_preserves w :
  P w → P (logout_detached server clock w).
Proof. intros HP. unfold logout_detached, dispatch, handed. apply P_pending, P_sent, HP. Qed.

Lemma notify_preserves error : preserves P (notify error).
Proof.
  unfold notify. apply preserves_bind; [| intros; apply preserves_throw].
  apply preserves_modify. intros w. unfold noticed.
  generalize (notifications error).
  intros ts. revert w. induction ts as [|t ts IH]; simpl; auto.
Qed.

Lemma destructure_preserves response : preserves P (destructure response).
Proof.
  unfold destructure.
  destruct (resp_data response); [apply preserves_ret | apply preserves_throw].
Qed.

Ltac preserve :=
  repeat first
    [ assumption
    | apply preserves_ret
    | apply preserves_throw
    | apply preserves_gets
    | apply destructure_preserves
    | apply preserves_modify; solve [auto]
    | apply preserves_try_catch; [| intros ?]
    | apply preserves_bind; [| intros ?]
    | match goal with
      | |- preserves P (let '(_, _) := ?x in _) => destruct x
      | |- preserves P (if ?b then _ else _) => destruct b
      | |- preserves P (match ?x with Some _ => _ | None => _ end) => destruct x
      | H : ∀ config, preserves P (?api config) |- preserves P (?api _) => apply H
      end ].


Section WithApi.

Variable api : Api.
Hypothesis api_preserves : ∀ config, preserves P (api config).

Lemma sign_in_preserves path body welcome failure :
  preserves P (sign_in api path body welcome failure).
Proof.
  unfold sign_in, api_post. preserve.
Qed.

Lemma logout_after_preserves (call : M Response) :
  preserves P call → preserves P (logout_after call).
Proof. intros Hcall. unfold logout_after. preserve. Qed.

Lemma refreshAccessToken_preserves :
  preserves P (refreshAccessToken server clock api).
Proof.
  unfold refreshAccessToken, api_post. preserve.
  apply preserves_modify, logout_detached_preserves.
Qed.

Lemma updateProfile_preserves profileData :
  preserves P (updateProfile api profileData).
Proof. unfold updateProfile, api_put. preserve. Qed.

Lemma on_rejected_preserves error :
  preserves P (on_rejected server clock api error).
Proof.
  unfold on_rejected.
  destruct (is_status error 401); [| apply notify_preserves].
  destruct (err_config error) as [config|]; [| apply preserves_throw].
  destruct (_retry config); [apply notify_preserves |].
  intros w r w' HP H.
  destruct (truthy (refreshToken (store w))).
  - destruct (refreshAccessToken server clock api w) as [[[a|e] w1]|] eqn:E;
      try discriminate.
    + exact (api_preserves _ _ _ _ (refreshAccessToken_preserves _ _ _ HP E) H).
    + injection H as _ <-.
      apply P_location, logout_detached_preserves.
      exact (refreshAccessToken_preserves _ _ _ HP E).
  - exact (notify_preserves _ _ _ _ HP H).
Qed.

Lemma settle_preserves request o :
  preserves P (settle server clock api request o).
Proof.
  unfold settle. destruct o as [r|message].
  - destruct (validateStatus (status r)).
    + apply preserves_ret.
    + apply on_rejected_preserves.
  - apply on_rejected_preserves.
Qed.

Lemma api_step_preserves config :
  preserves P (api_step server clock api config).
Proof.
  intros w r w' HP H. unfold api_step, dispatch, handed in H.
  exact (settle_preserves _ _ _ _ _ (P_sent config w HP) H).
Qed.

Lemma resume_preserves i : preserves P (resume server clock api i).
Proof.
  intros w r w' HP H. unfold resume in H.
  destruct (pending w !! i) as [[request o]|].
  - refine (logout_after_preserves _ (settle_preserves request o) _ _ _ _ H).
    apply P_pending, HP.
  - injection H as _ <-. exact HP.
Qed.

End WithApi.

Lemma api_call_preserves fuel config :
  preserves P (api_call server clock fuel config).
Proof.
  revert config. induction fuel as [|fuel IH]; intros config.
  - intros w r w' _ H. discriminate.
  - apply api_step_preserves, IH.
Qed.

Lemma drain_preserves fuel w w' :
  P w → drain server clock fuel w = Some w' → P w'.
Proof.
  revert w. induction fuel as [|fuel IH]; intros w HP H; simpl in H.
  - destruct (pending w); [injection H as <-; exact HP | discriminate].
  - destruct (pending w) eqn:Ep; [injection H as <-; exact HP |].
    destruct (resume server clock (api_call server clock fuel) 0 w) as [[r w1]|] eqn:E;
      [| discriminate].
    apply (IH w1); [| exact H].
    exact (resume_preserves _ (api_call_preserves fuel) 0 _ _ _ HP E).
Qed.

Hypothesis P_start : P start.
Hypothesis P_reload : ∀ w, P w → P (reload w).

Lemma reachable_preserves w : reachable server clock w → P w.
Proof.
  induction 1 as
    [ | w _ IH | w _ IH
    | w fuel email password r w' _ IH H
    | w fuel email password fullName r w' _ IH H
    | w fuel token r w' _ IH H
    | w fuel r w' _ IH H
    | w fuel r w' _ IH H
    | w fuel profileData r w' _ IH H
    | w fuel config r w' _ IH H
    | w fuel i r w' _ IH H ].
  - apply P_start.
  - apply P_reload, IH.
  - apply P_initialize, IH.
  - exact (sign_in_preserves _ (api_call_preserves fuel) _ _ _ _ _ _ _ IH H).
  - exact (sign_in_preserves _ (api_call_preserves fuel) _ _ _ _ _ _ _ IH H).
  - exact (sign_in_preserves _ (api_call_preserves fuel) _ _ _ _ _ _ _ IH H).
  - exact (logout_after_preserves _ (api_call_preserves fuel _) _ _ _ IH H).
  - exact (refreshAccessToken_preserves _ (api_call_preserves fuel) _ _ _ IH H).
  - exact (updateProfile_preserves _ (api_call_preserves fuel) _ _ _ _ IH H).
  - exact (api_call_preserves fuel _ _ _ _ IH H).
  - exact (resume_preserves _ (api_call_preserves fuel) _ _ _ _ IH H).
Qed.

End Preservation.

(** ** The steps of a request *)

Section Protocol.

Variable server : nat → Config → Outcome.
Variable clock : nat → Z.

Local Abbreviation api := (api_call server clock).

Lemma api_call_S fuel config w :
  api (S fuel) config w =
  settle server clock (api fuel) (prepare clock config w) (answer server clock config w) (handed clock config w).
Proof. reflexivity. Qed.

Lemma unauthorized_invalid s : s = 401 → validateStatus s = false.
Proof. intros ->. reflexivity. Qed.

Lemma settle_resolved a request r w :
  validateStatus (status r) = true →
  settle server clock a request (Answered r) w = Some (Resolved r, w).
Proof. intros H. unfold settle. rewrite H. reflexivity. Qed.

Lemma settle_rejected a request r w :
  validateStatus (status r) = false →
  settle server clock a request (Answered r) w =
  on_rejected server clock a (axios_error request (Answered r)) w.
Proof. intros H. unfold settle. rewrite H. reflexivity. Qed.

Lemma is_status_axios_error request r s :
  is_status (axios_error request (Answered r)) s = (status r =? s).
Proof. reflexivity. Qed.

(** A 401 that carries no notice. *)
Lemma notifications_unauthorized request r :
  status r = 401 → notifications (axios_error request (Answered r)) = [].
Proof.
  intros H. unfold notifications, is_server_error.
  rewrite !is_status_axios_error. simpl. rewrite H. reflexivity.
Qed.

Lemma on_rejected_refresh a request r w :
  status r = 401 → _retry request = false →
  truthy (refreshToken (store w)) = true →
  on_rejected server clock a (axios_error request (Answered r)) w =
  match refreshAccessToken server clock a w with
  | None => None
  | Some (Resolved _, w1) => a (mark_retry request) w1
  | Some (Rejected refreshError, w1) =>
      Some (Rejected refreshError, set_location "/login" (logout_detached server clock w1))
  end.
Proof.
  intros Hs Hr Ht. unfold on_rejected.
  rewrite is_status_axios_error, Hs. simpl. rewrite Hr, Ht. reflexivity.
Qed.

Lemma on_rejected_no_token a request r w :
  status r = 401 → _retry request = false →
  truthy (refreshToken (store w)) = false →
  on_rejected server clock a (axios_error request (Answered r)) w =
  Some (Rejected (axios_error (mark_retry request) (Answered r)), w).
Proof.
  intros Hs Hr Ht. unfold on_rejected.
  rewrite is_status_axios_error, Hs. simpl. rewrite Hr, Ht.
  unfold notify. unfold mbind, M_bind, bind, modify, throw, noticed.
  change (mkErr (Some (mark_retry request)) (Some r)
            ("Request failed with status code " +:+ pretty (status r)))
    with (axios_error (mark_retry request) (Answered r)).
  rewrite (notifications_unauthorized (mark_retry request) r Hs). reflexivity.
Qed.

Lemma on_rejected_marked a request r w :
  status r = 401 → _retry request = true →
  on_rejected server clock a (axios_error request (Answered r)) w =
  Some (Rejected (axios_error request (Answered r)), w).
Proof.
  intros Hs Hr. unfold on_rejected.
  rewrite is_status_axios_error, Hs. simpl. rewrite Hr.
  unfold notify. unfold mbind, M_bind, bind, modify, throw, noticed.
  change (mkErr (Some request) (Some r)
            ("Request failed with status code " +:+ pretty (status r)))
    with (axios_error request (Answered r)).
  rewrite (notifications_unauthorized request r Hs). reflexivity.
Qed.

(** The notices touch nothing but the list of toasts. *)
Lemma noticed_toasts error w :
  noticed error w =
  mkWorld (store w) (authorization w) (toasts w ++ notifications error)
          (location w) (console w) (sent w) (pending w).
Proof.
  unfold noticed. generalize (notifications error). intros ts. revert w.
  induction ts as [|t ts IH]; intros w; simpl.
  - rewrite app_nil_r. destruct w; reflexivity.
  - rewrite IH. simpl. rewrite <- app_assoc. reflexivity.
Qed.

(** A failure of a request that is marked ends there, whatever it is. *)
Lemma on_rejected_final a request o w :
  _retry request = true →
  on_rejected server clock a (axios_error request o) w =
  Some (Rejected (axios_error request o), noticed (axios_error request o) w).
Proof.
  intros Hr. unfold on_rejected.
  destruct (is_status (axios_error request o) 401); [| reflexivity].
  destruct o as [r|message]; simpl; rewrite Hr; reflexivity.
Qed.

(** [refreshAccessToken] when a refresh token is held: what it does with
    each way its request can end. *)
Lemma refreshAccessToken_held a w :
  truthy (refreshToken (store w)) = true →
  refreshAccessToken server clock a w =
  match a (refresh_request w) w with
  | None => None
  | Some (Resolved response, w1) =>
      match resp_data response with
      | Some d =>
          Some (Resolved (prop "access_token" (Some d)),
                refresh_session (prop "user" (Some d)) (prop "access_token" (Some d))
                  (prop "refresh_token" (Some d)) w1)
      | None =>
          Some (Rejected (type_error "Cannot destructure property 'access_token' of 'response.data' as it is undefined."),
                logout_detached server clock w1)
      end
  | Some (Rejected e, w1) => Some (Rejected e, logout_detached server clock w1)
  end.
Proof.
  intros Ht. unfold refreshAccessToken, try_catch.
  unfold mbind, M_bind, bind, gets. rewrite Ht. simpl.
  unfold api_post. fold (refresh_request w).
  destruct (a (refresh_request w) w) as [[[response|e] w1]|]; try reflexivity.
  unfold destructure. destruct (resp_data response); reflexivity.
Qed.

(** ** The 401 protocol *)

(** C1, amended.  A request that is not marked as a retry and is answered
    401 while a refresh token is held, the refresh request being answered
    2xx with a body: the client marks the request, refreshes once and sends
    the marked request once more, whatever comes back for it; three requests
    leave in all and the session holds the tokens of the refresh response.
    If the second attempt is answered 2xx the call resolves with that
    response. *)
Theorem unauthorized_request_retried_once fuel config w r1 r2 d :
  let w1 := handed clock config w in
  let w2 := refresh_session (prop "user" (Some d)) (prop "access_token" (Some d))
              (prop "refresh_token" (Some d))
              (handed clock (refresh_request w) w1) in
  let retry := mark_retry (prepare clock config w) in
  _retry config = false →
  truthy (refreshToken (store w)) = true →
  answer server clock config w = Answered r1 → status r1 = 401 →
  answer server clock (refresh_request w) w1 = Answered r2 →
  validateStatus (status r2) = true → resp_data r2 = Some d →
  ∃ result w3,
    api (S (S fuel)) config w = Some (result, w3)
    ∧ sent w3 =
        (sent w ++ [prepare clock config w;
                    prepare clock (refresh_request w) w1;
                    prepare clock retry w2])%list
    ∧ (_retry (prepare clock retry w2) = true
       ∧ url (prepare clock retry w2) = url config
       ∧ method (prepare clock retry w2) = method config
       ∧ data (prepare clock retry w2) = data config)
    ∧ store w3 =
        mkStore (prop "user" (Some d)) (prop "access_token" (Some d))
                (prop "refresh_token" (Some d)) true (isLoading (store w))
    ∧ (∀ r3, answer server clock retry w2 = Answered r3 →
             validateStatus (status r3) = true →
             result = Resolved r3 ∧ w3 = handed clock retry w2).
Proof.
  intros w1 w2 retry Hflag Htoken H1 Hs1 H2 Hs2 Hd.
  assert (Hsent : sent (handed clock retry w2) =
            (sent w ++ [prepare clock config w;
                        prepare clock (refresh_request w) w1;
                        prepare clock retry w2])%list).
  { simpl. rewrite <- !app_assoc. reflexivity. }
  assert (Hcall : api (S (S fuel)) config w =
            settle server clock (api fuel) (prepare clock retry w2)
              (answer server clock retry w2) (handed clock retry w2)).
  { rewrite api_call_S, H1, settle_rejected by (apply unauthorized_invalid, Hs1).
    rewrite on_rejected_refresh by assumption.
    rewrite refreshAccessToken_held by assumption.
    change (refresh_request (handed clock config w)) with (refresh_request w).
    fold w1. rewrite api_call_S, H2, settle_resolved, Hd by assumption.
    fold w2. fold retry. apply api_call_S. }
  rewrite Hcall.
  assert (Hfinal :
    settle server clock (api fuel) (prepare clock retry w2)
      (answer server clock retry w2) (handed clock retry w2) =
    Some (Rejected (axios_error (prepare clock retry w2) (answer server clock retry w2)),
          noticed (axios_error (prepare clock retry w2) (answer server clock retry w2))
            (handed clock retry w2)) →
    ∃ result w3,
      settle server clock (api fuel) (prepare clock retry w2)
        (answer server clock retry w2) (handed clock retry w2) = Some (result, w3)
      ∧ sent w3 =
          (sent w ++ [prepare clock config w;
                      prepare clock (refresh_request w) w1;
                      prepare clock retry w2])%list
      ∧ store w3 =
          mkStore (prop "user" (Some d)) (prop "access_token" (Some d))
                  (prop "refresh_token" (Some d)) true (isLoading (store w))).
  { intros ->. eexists _, _. split; [reflexivity |].
    rewrite noticed_toasts. split; [exact Hsent | reflexivity]. }
  assert (Hmarked :
    _retry (prepare clock retry w2) = true
    ∧ url (prepare clock retry w2) = url config
    ∧ method (prepare clock retry w2) = method config
    ∧ data (prepare clock retry w2) = data config)
    by (repeat split).
  destruct (answer server clock retry w2) as [r3|message] eqn:H3.
  - destruct (validateStatus (status r3)) eqn:Hs3.
    + rewrite settle_resolved by assumption.
      exists (Resolved r3), (handed clock retry w2).
      split; [reflexivity |]. split; [exact Hsent |]. split; [exact Hmarked |].
      split; [reflexivity |].
      intros r Hr _. injection Hr as <-. split; reflexivity.
    + rewrite settle_rejected in Hfinal |- * by assumption.
      destruct (Hfinal (on_rejected_final (api fuel) (prepare clock retry w2)
                          (Answered r3) (handed clock retry w2) eq_refl))
        as (result & w3 & Hres & Hlog & Hstore).
      exists result, w3.
      split; [exact Hres |]. split; [exact Hlog |]. split; [exact Hmarked |].
      split; [exact Hstore |].
      intros r Hr Hok. injection Hr as <-. congruence.
  - destruct (Hfinal (on_rejected_final (api fuel) (prepare clock retry w2)
                        (NoResponse message) (handed clock retry w2) eq_refl))
      as (result & w3 & Hres & Hlog & Hstore).
    exists result, w3.
    split; [exact Hres |]. split; [exact Hlog |]. split; [exact Hmarked |].
    split; [exact Hstore |].
    intros r Hr. discriminate.
Qed.

(** C2, amended.  When the retried request is answered 401 as well, its
    error is rejected to the caller and nothing else happens: the session
    keeps the tokens of the refresh, no logout is started and the location
    is not touched. *)
Theorem second_unauthorized_is_propagated fuel config w r1 r2 d r3 :
  let w1 := handed clock config w in
  let w2 := refresh_session (prop "user" (Some d)) (prop "access_token" (Some d))
              (prop "refresh_token" (Some d))
              (handed clock (refresh_request w) w1) in
  let retry := mark_retry (prepare clock config w) in
  _retry config = false →
  truthy (refreshToken (store w)) = true →
  answer server clock config w = Answered r1 → status r1 = 401 →
  answer server clock (refresh_request w) w1 = Answered r2 →
  validateStatus (status r2) = true → resp_data r2 = Some d →
  answer server clock retry w2 = Answered r3 → status r3 = 401 →
  api (S (S fuel)) config w =
    Some (Rejected (axios_error (prepare clock retry w2) (Answered r3)),
          handed clock retry w2)
  ∧ store (handed clock retry w2) =
      mkStore (prop "user" (Some d)) (prop "access_token" (Some d))
              (prop "refresh_token" (Some d)) true (isLoading (store w))
  ∧ authorization (handed clock retry w2) = Some (bearer (prop "access_token" (Some d)))
  ∧ pending (handed clock retry w2) = pending w
  ∧ location (handed clock retry w2) = location w
  ∧ toasts (handed clock retry w2) = toasts w.
Proof.
  intros w1 w2 retry Hflag Htoken H1 Hs1 H2 Hs2 Hd H3 Hs3.
  split; [| repeat split].
  rewrite api_call_S, H1, settle_rejected by (apply unauthorized_invalid, Hs1).
  rewrite on_rejected_refresh by assumption.
  rewrite refreshAccessToken_held by assumption.
  change (refresh_request (handed clock config w)) with (refresh_request w).
  fold w1. rewrite api_call_S, H2, settle_resolved, Hd by assumption.
  fold w2. fold retry.
  rewrite api_call_S, H3, settle_rejected by (apply unauthorized_invalid, Hs3).
  apply on_rejected_marked; [assumption | reflexivity].
Qed.

End Protocol.

(** ** Logout and the calls that were not awaited *)

Section Teardown.

Variable server : nat → Config → Outcome.
Variable clock : nat → Z.

Local Abbreviation api := (api_call server clock).

Lemma pending_noticed error w : pending (noticed error w) = pending w.
Proof.
  unfold noticed. generalize (notifications error). intros ts. revert w.
  induction ts as [|t ts IH]; intros w; simpl; [reflexivity |].
  rewrite IH. reflexivity.
Qed.

(** Whatever its request came to, a [logout] that goes on ends with the
    session cleared and the header removed. *)
Lemma logout_after_clears call w r w' :
  logout_after call w = Some (r, w') → r = Resolved tt ∧ session_cleared w'.
Proof.
  unfold logout_after, mbind, M_bind, bind, try_catch, modify, mret, M_ret, ret.
  destruct (call w) as [[[a|e] w1]|]; simpl; intros H; try discriminate;
    injection H as <- <-; repeat split.
Qed.

(** An outcome other than 401 ends the request there: it resolves, or it is
    rejected after its notices. *)
Lemma settle_other a request o w :
  unauthorized o = false →
  ∃ res w', settle server clock a request o w = Some (res, w')
            ∧ pending w' = pending w.
Proof.
  intros Ho. unfold settle. destruct o as [r|message].
  - destruct (validateStatus (status r)); [eexists _, _; split; reflexivity |].
    unfold on_rejected. rewrite is_status_axios_error.
    simpl in Ho. rewrite Ho.
    eexists _, _. split; [reflexivity |]. apply pending_noticed.
  - unfold on_rejected. simpl.
    eexists _, _. split; [reflexivity |]. apply pending_noticed.
Qed.

Lemma resume_other a request o rest w :
  pending w = (request, o) :: rest → unauthorized o = false →
  ∃ w', resume server clock a 0 w = Some (Resolved tt, w') ∧ pending w' = rest.
Proof.
  intros Hp Ho. unfold resume. rewrite Hp. simpl.
  destruct (settle_other a request o (set_pending rest w) Ho) as (res & w1 & E & Hp1).
  unfold logout_after, mbind, M_bind, bind, try_catch, modify, mret, M_ret, ret.
  rewrite E. destruct res as [response|e]; simpl;
    (eexists; split; [reflexivity | simpl; exact Hp1]).
Qed.

Lemma resume_clears a i w r w' :
  is_Some (pending w !! i) → resume server clock a i w = Some (r, w') →
  session_cleared w'.
Proof.
  intros [[request o] Hi] H. unfold resume in H. rewrite Hi in H.
  exact (proj2 (logout_after_clears _ _ _ _ H)).
Qed.

(** Once the parked calls have all run, the session is cleared. *)
Lemma drain_clears fuel w w' :
  drain server clock fuel w = Some w' →
  pending w ≠ [] ∨ session_cleared w →
  session_cleared w'.
Proof.
  revert w. induction fuel as [|fuel IH]; intros w H Hw; simpl in H.
  - destruct (pending w); [| discriminate].
    injection H as <-. destruct Hw as [Hw|Hw]; [contradiction | exact Hw].
  - destruct (pending w) as [|p ps] eqn:Ep.
    + injection H as <-. destruct Hw as [Hw|Hw]; [contradiction | exact Hw].
    + destruct (resume server clock (api fuel) 0 w) as [[r w1]|] eqn:E;
        [| discriminate].
      apply (IH w1 H). right.
      apply (resume_clears (api fuel) 0 w r w1); [| exact E].
      rewrite Ep. simpl. eauto.
Qed.

(** They do all run when none of them was answered 401. *)
Lemma drain_settles w :
  Forall (fun p => unauthorized p.2 = false) (pending w) →
  ∃ w', drain server clock (length (pending w)) w = Some w'.
Proof.
  remember (pending w) as l eqn:El. revert w El.
  induction l as [|[request o] rest IH]; intros w El Hl.
  - exists w. simpl. rewrite <- El. reflexivity.
  - apply Forall_cons in Hl. destruct Hl as [Ho Hrest]. simpl in Ho.
    destruct (resume_other (api (length rest)) request o rest w (eq_sym El) Ho)
      as (w1 & E & Hp1).
    destruct (IH w1 (eq_sym Hp1) Hrest) as [w' Hw'].
    exists w'. simpl. rewrite <- El, E. exact Hw'.
Qed.

(** What [logout] does when it settles, and that it settles when the
    answer to its own request is not a 401. *)
Lemma logout_clears fuel w r w' :
  logout (api fuel) w = Some (r, w') → r = Resolved tt ∧ session_cleared w'.
Proof. apply logout_after_clears. Qed.

Lemma logout_settles fuel w :
  unauthorized (answer server clock logout_request w) = false →
  ∃ w', logout (api (S fuel)) w = Some (Resolved tt, w') ∧ session_cleared w'.
Proof.
  intros Ho. unfold logout, api_post. fold logout_request.
  destruct (settle_other (api fuel) (prepare clock logout_request w)
              (answer server clock logout_request w)
              (handed clock logout_request w) Ho) as (res & w1 & E & _).
  unfold logout_after, mbind, M_bind, bind, try_catch, modify, mret, M_ret, ret.
  rewrite api_call_S, E.
  destruct res as [response|e]; simpl; (eexists; split; [reflexivity | split; reflexivity]).
Qed.

(** C3, amended.  A request that is not marked as a retry is answered 401.
    With no refresh token in the session the client does nothing but reject
    with that error: no logout, no redirect.  With a refresh token whose
    refresh fails, it starts a logout, sets the location to [/login] and
    rejects with the error of the refresh; the session is cleared once the
    started logouts have run, and they do run when none was answered 401. *)
Theorem unauthorized_request_without_refresh fuel config w r1 :
  let w1 := handed clock config w in
  _retry config = false →
  answer server clock config w = Answered r1 → status r1 = 401 →
  (truthy (refreshToken (store w)) = false →
   api (S fuel) config w =
     Some (Rejected (axios_error (mark_retry (prepare clock config w)) (Answered r1)), w1))
  ∧ (truthy (refreshToken (store w)) = true →
     ∀ refreshError w2,
       refreshAccessToken server clock (api fuel) w1 = Some (Rejected refreshError, w2) →
       let w3 := set_location "/login" (logout_detached server clock w2) in
       api (S fuel) config w = Some (Rejected refreshError, w3)
       ∧ location w3 = Some "/login"
       ∧ pending w3 =
           (pending w2 ++ [(prepare clock logout_request w2,
                            answer server clock logout_request w2)])%list
       ∧ (∀ fuel' w4, drain server clock fuel' w3 = Some w4 → session_cleared w4)
       ∧ (Forall (fun p => unauthorized p.2 = false) (pending w3) →
          ∃ w4, drain server clock (length (pending w3)) w3 = Some w4
                ∧ session_cleared w4)).
Proof.
  intros w1 Hflag H1 Hs1. split.
  - intros Htoken.
    rewrite api_call_S, H1, settle_rejected by (apply unauthorized_invalid, Hs1).
    apply on_rejected_no_token; assumption.
  - intros Htoken refreshError w2 Hrefresh w3.
    assert (Hpending : pending w3 =
              (pending w2 ++ [(prepare clock logout_request w2,
                               answer server clock logout_request w2)])%list)
      by reflexivity.
    assert (Hclears : ∀ fuel' w4, drain server clock fuel' w3 = Some w4 → session_cleared w4).
    { intros fuel' w4 Hd. apply (drain_clears fuel' w3 w4 Hd). left.
      rewrite Hpending. intros Hnil. apply app_eq_nil in Hnil.
      destruct Hnil as [_ Hnil]. discriminate. }
    split; [| split; [reflexivity | split; [exact Hpending | split; [exact Hclears |]]]].
    + rewrite api_call_S, H1, settle_rejected by (apply unauthorized_invalid, Hs1).
      rewrite on_rejected_refresh by assumption.
      fold w1. rewrite Hrefresh. reflexivity.
    + intros Hall. destruct (drain_settles w3 Hall) as [w4 Hw4].
      exists w4. split; [exact Hw4 | exact (Hclears _ _ Hw4)].
Qed.

End Teardown.

(** ** Notices *)

Section Notices.

Variable server : nat → Config → Outcome.
Variable clock : nat → Z.

(** C7, amended.  A response with status 429 is rejected after one notice,
    the rate-limit message.  The message names the value of the
    [retry-after] header when the header is there and not empty, and 60
    when it is missing or empty. *)
Theorem rate_limit_notice a request r w :
  status r = 429 →
  settle server clock a request (Answered r) w =
    Some (Rejected (axios_error request (Answered r)),
          toast (ToastError (JStr (rate_limit_message (resp_headers r !! "retry-after")))) w)
  ∧ (∀ v, v ≠ "" →
       rate_limit_message (Some v) =
       "Too many requests. Please try again in " +:+ v +:+ " seconds")
  ∧ rate_limit_message (Some "45") = "Too many requests. Please try again in 45 seconds"
  ∧ rate_limit_message None = "Too many requests. Please try again in 60 seconds"
  ∧ rate_limit_message (Some "") = "Too many requests. Please try again in 60 seconds".
Proof.
  intros Hs. repeat split.
  - rewrite settle_rejected by (rewrite Hs; reflexivity).
    unfold on_rejected. rewrite is_status_axios_error, Hs.
    change (429 =? 401) with false. cbv iota.
    unfold notify, mbind, M_bind, bind, modify, throw, noticed, notifications,
      is_server_error, retry_after.
    rewrite !is_status_axios_error, Hs. simpl. rewrite Hs. reflexivity.
  - intros v Hv. unfold rate_limit_message.
    destruct (String.eqb_spec v ""); [contradiction | reflexivity].
Qed.

(** C8.  A request that got no response is rejected with its error after
    one notice, the network message; no error that carries a response gets
    that notice, so the two kinds are never noticed alike. *)
Theorem network_error_notice a request message w request' r :
  settle server clock a request (NoResponse message) w =
    Some (Rejected (mkErr (Some request) None message),
          toast (ToastError "Network error. Please check your connection") w)
  ∧ notifications (axios_error request (NoResponse message)) =
      [ToastError "Network error. Please check your connection"]
  ∧ (ToastError "Network error. Please check your connection"
       ∉ notifications (axios_error request' (Answered r)))
  ∧ (notifications (axios_error request' (Answered r))
       ≠ notifications (axios_error request (NoResponse message))).
Proof.
  assert (Hnot : ToastError "Network error. Please check your connection"
                   ∉ notifications (axios_error request' (Answered r))).
  { unfold notifications, is_server_error. rewrite !is_status_axios_error. simpl.
    rewrite app_nil_r.
    intros Hin. rewrite !elem_of_app in Hin.
    destruct Hin as [Hin|[Hin|[Hin|Hin]]];
      match type of Hin with
      | _ ∈ (if ?b then _ else _) => destruct b
      end;
      try (apply elem_of_nil in Hin; contradiction);
      apply list_elem_of_singleton in Hin; discriminate. }
  repeat split; try exact Hnot.
  intros Heq. apply Hnot. rewrite Heq. simpl. apply list_elem_of_here.
Qed.

(** C10, amended.  A wrapper of [apiClient] never rejects: it is pending as
    long as the request is, resolves with the data when the request
    resolves, and with [success: false] when it is rejected; [error] is then
    the [detail] of the response body when that is truthy (present and not
    empty), and the message of the error otherwise. *)
Theorem apiClient_never_rejects (a : Api) u d config w :
  let outcome_of (call : M Response) (wrapped : M ClientResult) :=
    (call w = None → wrapped w = None)
    ∧ (∀ response w', call w = Some (Resolved response, w') →
         wrapped w = Some (Resolved (mkClientResult (resp_data response) true None), w'))
    ∧ (∀ e w', call w = Some (Rejected e, w') →
         ∃ message,
           wrapped w = Some (Resolved (mkClientResult None false (Some message)), w')
           ∧ (truthy (detail e) = true → detail e = Some message)
           ∧ (truthy (detail e) = false → message = JStr (err_message e)))
    ∧ (∀ e w', wrapped w ≠ Some (Rejected e, w')) in
  outcome_of (api_get a u config) (apiClient_get a u config)
  ∧ outcome_of (api_post a u d config) (apiClient_post a u d config)
  ∧ outcome_of (api_put a u d config) (apiClient_put a u d config)
  ∧ outcome_of (api_delete a u config) (apiClient_delete a u config).
Proof.
  assert (H : ∀ call,
    (call w = None → handled call w = None)
    ∧ (∀ response w', call w = Some (Resolved response, w') →
         handled call w = Some (Resolved (mkClientResult (resp_data response) true None), w'))
    ∧ (∀ e w', call w = Some (Rejected e, w') →
         ∃ message,
           handled call w = Some (Resolved (mkClientResult None false (Some message)), w')
           ∧ (truthy (detail e) = true → detail e = Some message)
           ∧ (truthy (detail e) = false → message = JStr (err_message e)))
    ∧ (∀ e w', handled call w ≠ Some (Rejected e, w'))).
  { intros call.
    unfold handled, try_catch, mbind, M_bind, bind, mret, M_ret, ret.
    repeat split.
    - intros ->. reflexivity.
    - intros response w' ->. reflexivity.
    - intros e w' ->. exists (or_else (detail e) (err_message e)).
      split; [reflexivity |]. unfold or_else.
      destruct (detail e) as [j|]; [| split; [discriminate | reflexivity]].
      destruct (truthy (Some j)); split; try discriminate; reflexivity.
    - intros e w'. destruct (call w) as [[[response|e'] w1]|]; discriminate. }
  intros outcome_of. repeat split; apply H.
Qed.

End Notices.

(** ** What holds in every reachable world *)

Section Invariants.

Variable server : nat → Config → Outcome.
Variable clock : nat → Z.

(** C4.  In every world the page can reach through the store's actions,
    requests, resumed calls and reloads, an access token is held only while
    [isAuthenticated] is true. *)
Theorem access_token_only_while_authenticated w :
  reachable server clock w →
  accessToken (store w) ≠ None → isAuthenticated (store w) = true.
Proof.
  apply (reachable_preserves server clock
           (fun w => accessToken (store w) ≠ None → isAuthenticated (store w) = true));
    try (intros; auto; fail).
  - intros w0 H. unfold initialize.
    destruct (truthy (accessToken (store w0))); [intros; reflexivity | exact H].
  - intros w0 H. unfold reload, initialize. simpl.
    destruct (truthy (accessToken (store w0))); [intros; reflexivity | exact H].
Qed.

(** C9.  Every request that has left carries the parameter [_t], the time
    read for it by the request interceptor; the other parameters of the
    call are kept. *)
Theorem every_request_is_stamped w :
  reachable server clock w →
  (∀ i request, sent w !! i = Some request →
     params request !! "_t" = Some (PNum (clock i)))
  ∧ (∀ config w0 k, k ≠ "_t" →
       params (prepare clock config w0) !! k = params config !! k).
Proof.
  intros Hw. split.
  - revert Hw. revert w.
    apply (reachable_preserves server clock
             (fun w => ∀ i request, sent w !! i = Some request →
                         params request !! "_t" = Some (PNum (clock i))));
      try (intros; eauto; fail).
    + intros config w0 H i request Hi. simpl in Hi.
      apply lookup_app_Some in Hi. destruct Hi as [Hi|[Hlen Hi]]; [eauto |].
      apply list_lookup_singleton_Some in Hi. destruct Hi as [Hi <-].
      replace i with (length (sent w0)) by lia.
      simpl. apply lookup_insert_eq.
    + intros w0 H. unfold initialize.
      destruct (truthy (accessToken (store w0))); exact H.
    + intros i request Hi. discriminate.
    + intros w0 H. unfold reload, initialize. simpl.
      destruct (truthy (accessToken (store w0))); exact H.
  - intros config w0 k Hk. simpl. apply lookup_insert_ne. congruence.
Qed.



End Invariants.

(** ** The refresh loop *)

Section Loop.

Variable server : nat → Config → Outcome.
Variable clock : nat → Z.

Hypothesis refused : ∀ n request, unauthorized (server n request) = true.

(** When every answer is a 401 and a refresh token is held, a request that
    is not marked never settles: its refresh request is not marked either. *)
Lemma unmarked_request_never_settles fuel config w :
  truthy (refreshToken (store w)) = true → _retry config = false →
  api_call server clock fuel config w = None.
Proof.
  revert config w. induction fuel as [|fuel IH]; intros config w Ht Hc;
    [reflexivity |].
  rewrite api_call_S.
  pose proof (refused (length (sent w)) (prepare clock config w)) as Hr.
  unfold answer. destruct (server (length (sent w)) (prepare clock config w)) as [r|];
    [| discriminate].
  simpl in Hr. apply Z.eqb_eq in Hr.
  rewrite settle_rejected by (apply unauthorized_invalid, Hr).
  rewrite (on_rejected_refresh server clock _ (prepare clock config w) r
             (handed clock config w) Hr Hc Ht).
  rewrite (refreshAccessToken_held server clock _ (handed clock config w) Ht).
  rewrite (IH (refresh_request (handed clock config w)) (handed clock config w) Ht eq_refl).
  reflexivity.
Qed.

Lemma logout_never_settles_when_refused fuel w :
  truthy (refreshToken (store w)) = true →
  logout (api_call server clock fuel) w = None.
Proof.
  intros Ht. unfold logout, api_post, logout_after, mbind, M_bind, bind, try_catch.
  rewrite unmarked_request_never_settles by (assumption || reflexivity).
  reflexivity.
Qed.

End Loop.

(** ** When the refusals end *)

Section Settles.

Variable server : nat → Config → Outcome.
Variable clock : nat → Z.

(** From the [bound]-th request on, no answer is a 401. *)
Variable bound : nat.
Hypothesis refusals_end :
  ∀ n request, (bound ≤ n)%nat → unauthorized (server n request) = false.

(** The log of requests only grows. *)
Lemma api_call_sent_grows fuel config w r w' k :
  (k ≤ length (sent w))%nat →
  api_call server clock fuel config w = Some (r, w') →
  (k ≤ length (sent w'))%nat.
Proof.
  apply (api_call_preserves server clock (fun w => (k ≤ length (sent w))%nat));
    try (intros; simpl; auto; fail).
  intros c w0 H. simpl. rewrite length_app. lia.
Qed.

(** Every request settles: each level of the recursion has used up one of
    the refusals that are left. *)
Lemma api_call_settles fuel config w :
  (bound - length (sent w) < fuel)%nat →
  ∃ r w', api_call server clock fuel config w = Some (r, w').
Proof.
  revert config w. induction fuel as [|fuel IH]; intros config w Hfuel; [lia |].
  rewrite api_call_S.
  destruct (unauthorized (answer server clock config w)) eqn:E;
    [| destruct (settle_other server clock (api_call server clock fuel)
                   (prepare clock config w) (answer server clock config w)
                   (handed clock config w) E) as (res & w' & H & _); eauto].
  assert (Hlt : (length (sent w) < bound)%nat).
  { destruct (Nat.lt_ge_cases (length (sent w)) bound) as [Hlt|Hge]; [exact Hlt |].
    unfold answer in E. rewrite (refusals_end _ _ Hge) in E. discriminate. }
  destruct (answer server clock config w) as [r|]; [| discriminate].
  simpl in E. apply Z.eqb_eq in E.
  rewrite settle_rejected by (apply unauthorized_invalid, E).
  destruct (_retry (prepare clock config w)) eqn:Hflag;
    [rewrite on_rejected_marked by assumption; eauto |].
  destruct (truthy (refreshToken (store (handed clock config w)))) eqn:Htoken;
    [| rewrite on_rejected_no_token by assumption; eauto].
  rewrite on_rejected_refresh by assumption.
  rewrite refreshAccessToken_held by assumption.
  assert (Hsent : length (sent (handed clock config w)) = S (length (sent w))).
  { simpl. rewrite length_app. simpl. lia. }
  destruct (IH (refresh_request (handed clock config w)) (handed clock config w))
    as (res & w2 & Hrefresh); [lia |].
  rewrite Hrefresh.
  destruct res as [response|e]; [| eauto].
  destruct (resp_data response) as [d|]; [| eauto].
  apply IH.
  pose proof (api_call_sent_grows _ _ _ _ _ _ (Nat.le_refl _) Hrefresh) as Hgrow.
  simpl in Hgrow |- *. rewrite length_app in Hgrow. simpl in Hgrow. lia.
Qed.

(** So does [logout], and it clears the session. *)
Lemma logout_settles_when_refusals_end fuel w :
  (bound - length (sent w) < fuel)%nat →
  ∃ w', logout (api_call server clock fuel) w = Some (Resolved tt, w')
        ∧ session_cleared w'.
Proof.
  intros Hfuel.
  destruct (api_call_settles fuel logout_request w Hfuel) as (res & w1 & H).
  unfold logout, api_post. fold logout_request.
  unfold logout_after, mbind, M_bind, bind, try_catch, modify, mret, M_ret, ret.
  rewrite H.
  destruct res as [response|e]; simpl; (eexists; split; [reflexivity | split; reflexivity]).
Qed.

End Settles.

(** ** Concrete runs *)

Lemma unauthorized_request_retried_once_witness :
  api_call refresh_accepted wall_clock 2 get_pages signed_in =
  Some (Resolved (mkResponse 200 ∅ (Some (JStr "pages"))),
        handed wall_clock second_attempt after_refresh).
Proof.
  destruct (unauthorized_request_retried_once refresh_accepted wall_clock 0
              get_pages signed_in
              (mkResponse 401 ∅ None) (mkResponse 200 ∅ (Some new_tokens))
              new_tokens
              eq_refl eq_refl eq_refl eq_refl eq_refl eq_refl eq_refl)
    as (result & w3 & Hcall & _ & _ & _ & Hok).
  destruct (Hok (mkResponse 200 ∅ (Some (JStr "pages"))) eq_refl eq_refl)
    as [Hresult Hworld].
  rewrite Hcall, Hresult, Hworld. reflexivity.
Defined.

(** C1 as stated fails: with no refresh token in the session a first 401
    is rejected at once; one request has left, none to [/auth/refresh] and
    no second attempt. *)
Lemma unauthorized_without_refresh_token_not_retried :
  _retry get_pages = false
  ∧ answer always_unauthorized wall_clock get_pages no_refresh_token =
      answered 401 None
  ∧ api_call always_unauthorized wall_clock 3 get_pages no_refresh_token =
      Some (Rejected (axios_error (mark_retry (prepare wall_clock get_pages no_refresh_token))
                        (answered 401 None)),
            handed wall_clock get_pages no_refresh_token)
  ∧ sent (handed wall_clock get_pages no_refresh_token) =
      [prepare wall_clock get_pages no_refresh_token].
Proof. repeat split. Qed.

Lemma second_unauthorized_is_propagated_witness :
  api_call retry_refused wall_clock 2 get_pages signed_in =
  Some (Rejected (axios_error (prepare wall_clock second_attempt after_refresh)
                    (answered 401 None)),
        handed wall_clock second_attempt after_refresh).
Proof.
  exact (proj1 (second_unauthorized_is_propagated retry_refused wall_clock 0
                  get_pages signed_in
                  (mkResponse 401 ∅ None) (mkResponse 200 ∅ (Some new_tokens))
                  new_tokens (mkResponse 401 ∅ None)
                  eq_refl eq_refl eq_refl eq_refl eq_refl eq_refl eq_refl
                  eq_refl eq_refl)).
Defined.

(** C2 as stated fails: after a 401, a refresh that succeeds and a second
    401, the call is rejected but the session is still there, with the
    tokens of the refresh, and no logout is under way. *)
Lemma second_unauthorized_keeps_session :
  ∃ e w',
    api_call retry_refused wall_clock 2 get_pages signed_in = Some (Rejected e, w')
    ∧ store w' = mkStore (Some (JStr "ann")) (Some (JStr "new")) (Some (JStr "r2")) true false
    ∧ authorization w' = Some "Bearer new"
    ∧ pending w' = []
    ∧ location w' = None
    ∧ drain retry_refused wall_clock 5 w' = Some w'.
Proof.
  exists (axios_error (prepare wall_clock second_attempt after_refresh)
            (answered 401 None)),
         (handed wall_clock second_attempt after_refresh).
  repeat split.
Qed.

Lemma unauthorized_request_without_refresh_witness :
  api_call always_unauthorized wall_clock 1 get_pages no_refresh_token =
    Some (Rejected (axios_error (mark_retry (prepare wall_clock get_pages no_refresh_token))
                      (answered 401 None)),
          handed wall_clock get_pages no_refresh_token)
  ∧ api_call refresh_refused wall_clock 2 get_pages signed_in =
      Some (Rejected refresh_failure,
            set_location "/login"
              (logout_detached refresh_refused wall_clock after_failed_refresh))
  ∧ ∃ w4, drain refresh_refused wall_clock 2
            (set_location "/login"
               (logout_detached refresh_refused wall_clock after_failed_refresh)) = Some w4
          ∧ session_cleared w4.
Proof.
  split.
  - exact (proj1 (unauthorized_request_without_refresh always_unauthorized wall_clock 0
                    get_pages no_refresh_token (mkResponse 401 ∅ None)
                    eq_refl eq_refl eq_refl) eq_refl).
  - destruct (proj2 (unauthorized_request_without_refresh refresh_refused wall_clock 1
                       get_pages signed_in (mkResponse 401 ∅ None)
                       eq_refl eq_refl eq_refl)
                eq_refl refresh_failure after_failed_refresh eq_refl)
      as (Hcall & _ & _ & _ & Hdrain).
    split; [exact Hcall |]. apply Hdrain. repeat constructor.
Defined.

(** C3 as stated fails: with an access token but no refresh token in the
    session, a 401 is rejected and that is all; the session is not cleared,
    the location is not set and no logout is under way. *)
Lemma unauthorized_without_refresh_token_keeps_session :
  truthy (refreshToken (store no_refresh_token)) = false
  ∧ api_call always_unauthorized wall_clock 3 get_pages no_refresh_token =
      Some (Rejected (axios_error (mark_retry (prepare wall_clock get_pages no_refresh_token))
                        (answered 401 None)),
            handed wall_clock get_pages no_refresh_token)
  ∧ store (handed wall_clock get_pages no_refresh_token) =
      mkStore (Some (JStr "ann")) (Some (JStr "old")) None true false
  ∧ authorization (handed wall_clock get_pages no_refresh_token) = Some "Bearer old"
  ∧ location (handed wall_clock get_pages no_refresh_token) = None
  ∧ pending (handed wall_clock get_pages no_refresh_token) = []
  ∧ drain always_unauthorized wall_clock 5 (handed wall_clock get_pages no_refresh_token) =
      Some (handed wall_clock get_pages no_refresh_token).
Proof. repeat split. Qed.

(** C5, the failing run: a [logout] whose request and whose refresh
    requests are all answered 401 never reaches the clearing of the
    session, whatever the fuel. *)
Theorem logout_never_settles fuel :
  logout (api_call always_unauthorized wall_clock fuel) signed_in = None.
Proof.
  apply logout_never_settles_when_refused; [intros; reflexivity | reflexivity].
Qed.

(** C6, the failing run: after the refresh the session and the defaults of
    the client hold the new token, and the request sent again still carries
    the old one, which it got from the defaults the first time. *)
Theorem retried_request_carries_stale_token :
  api_call refresh_accepted wall_clock 2 get_pages signed_in =
    Some (Resolved (mkResponse 200 ∅ (Some (JStr "pages"))),
          handed wall_clock second_attempt after_refresh)
  ∧ accessToken (store after_refresh) = Some (JStr "new")
  ∧ authorization after_refresh = Some "Bearer new"
  ∧ sent (handed wall_clock second_attempt after_refresh) !! 2%nat =
      Some (prepare wall_clock second_attempt after_refresh)
  ∧ headers (prepare wall_clock second_attempt after_refresh) !! "Authorization" =
      Some "Bearer old".
Proof. repeat split; vm_compute; reflexivity. Qed.

Lemma rate_limit_notice_witness :
  settle always_unauthorized wall_clock (api_call always_unauthorized wall_clock 0)
         get_pages (Answered (rate_limited "45")) signed_in =
  Some (Rejected (axios_error get_pages (Answered (rate_limited "45"))),
        toast (ToastError "Too many requests. Please try again in 45 seconds") signed_in).
Proof.
  exact (proj1 (rate_limit_notice always_unauthorized wall_clock
                  (api_call always_unauthorized wall_clock 0)
                  get_pages (rate_limited "45") signed_in eq_refl)).
Defined.

(** C7 as stated fails: the header is there, with an empty value, and the
    notice names 60 seconds. *)
Lemma empty_retry_after_is_not_read :
  resp_headers (rate_limited "") !! "retry-after" = Some ""
  ∧ api_call (scripted [] (Answered (rate_limited ""))) wall_clock 1 get_pages signed_in =
      Some (Rejected (axios_error (prepare wall_clock get_pages signed_in)
                        (Answered (rate_limited ""))),
            toast (ToastError "Too many requests. Please try again in 60 seconds")
              (handed wall_clock get_pages signed_in)).
Proof. split; vm_compute; reflexivity. Qed.

(** C10 as stated fails: the body of the response has a [detail] field,
    the empty string, and [error] is the message of the error. *)
Lemma empty_detail_is_not_reported :
  prop "detail" (resp_data empty_detail) = Some (JStr "")
  ∧ apiClient_get (api_call (scripted [] (Answered empty_detail)) wall_clock 1)
      "/pages" no_config signed_in =
      Some (Resolved (mkClientResult None false
                        (Some (JStr "Request failed with status code 400"))),
            handed wall_clock get_pages signed_in).
Proof. split; vm_compute; reflexivity. Qed.

Lemma reachable_logged_in : reachable sign_in_accepted wall_clock logged_in.
Proof.
  apply (reach_login sign_in_accepted wall_clock start 1
           (Some (JStr "ann@example.org")) (Some (JStr "secret"))
           (Resolved (mkOpResult true None)) logged_in).
  - apply reach_start.
  - reflexivity.
Qed.

Lemma access_token_only_while_authenticated_witness :
  accessToken (store logged_in) = Some (JStr "new")
  ∧ isAuthenticated (store logged_in) = true.
Proof.
  split; [reflexivity |].
  apply (access_token_only_while_authenticated sign_in_accepted wall_clock logged_in
           reachable_logged_in).
  discriminate.
Defined.

Lemma every_request_is_stamped_witness :
  ∃ request,
    sent logged_in = [request]
    ∧ params request !! "_t" = Some (PNum (wall_clock 0)).
Proof.
  eexists. split; [reflexivity |].
  apply (proj1 (every_request_is_stamped sign_in_accepted wall_clock logged_in
                  reachable_logged_in) 0%nat).
  reflexivity.
Defined.

(** * Further properties *)

(** ** A failure that is not a 401 *)

Section Failure.

Variable server : nat → Config → Outcome.
Variable clock : nat → Z.

Local Abbreviation api := (api_call server clock).

Lemma settle_failure a request o w :
  succeeded o = None → unauthorized o = false →
  settle server clock a request o w =
  Some (Rejected (axios_error request o), noticed (axios_error request o) w).
Proof.
  intros Hfail Ho. destruct o as [r|message]; simpl in Hfail, Ho.
  - destruct (validateStatus (status r)) eqn:Hv; [discriminate |].
    rewrite settle_rejected by exact Hv.
    unfold on_rejected. rewrite is_status_axios_error, Ho. reflexivity.
  - reflexivity.
Qed.

Lemma settle_success a request o r w :
  succeeded o = Some r →
  settle server clock a request o w = Some (Resolved r, w).
Proof.
  intros Hok. destruct o as [r'|message]; simpl in Hok; [| discriminate].
  destruct (validateStatus (status r')) eqn:Hv; [| discriminate].
  injection Hok as ->. apply settle_resolved, Hv.
Qed.

(** The five tests of the handler exclude each other: a failure gets the
    one notice of its kind, or none. *)
Lemma notifications_by_kind request o :
  notifications (axios_error request o) =
  match o with
  | NoResponse _ => [ToastError "Network error. Please check your connection"]
  | Answered r =>
      if status r =? 403 then
        [ToastError "You do not have permission to perform this action"]
      else if status r =? 404 then
        [ToastError "The requested resource was not found"]
      else if status r =? 429 then
        [ToastError (JStr (rate_limit_message (resp_headers r !! "retry-after")))]
      else if 500 <=? status r then
        [ToastError "Server error. Please try again later"]
      else []
  end.
Proof.
  destruct o as [r|message]; [| reflexivity].
  unfold notifications, is_server_error, retry_after.
  rewrite !is_status_axios_error. simpl.
  destruct (Z.eqb_spec (status r) 403) as [->|H403]; [reflexivity |].
  destruct (Z.eqb_spec (status r) 404) as [->|H404]; [reflexivity |].
  destruct (Z.eqb_spec (status r) 429) as [->|H429]; [reflexivity |].
  destruct (500 <=? status r); reflexivity.
Qed.

(** A request whose answer is neither a success nor a 401 is rejected with
    its error, after the one notice of its kind if there is one; nothing
    else happens: one request has left and the session is as it was. *)
Theorem failed_request_is_rejected_after_its_notice fuel config w :
  let request := prepare clock config w in
  let o := answer server clock config w in
  let w' := noticed (axios_error request o) (handed clock config w) in
  succeeded o = None → unauthorized o = false →
  api (S fuel) config w = Some (Rejected (axios_error request o), w')
  ∧ sent w' = (sent w ++ [request])%list
  ∧ toasts w' =
      (toasts w ++
       match o with
       | NoResponse _ => [ToastError "Network error. Please check your connection"]
       | Answered r =>
           if status r =? 403 then
             [ToastError "You do not have permission to perform this action"]
           else if status r =? 404 then
             [ToastError "The requested resource was not found"]
           else if status r =? 429 then
             [ToastError (JStr (rate_limit_message (resp_headers r !! "retry-after")))]
           else if 500 <=? status r then
             [ToastError "Server error. Please try again later"]
           else []
       end)%list
  ∧ store w' = store w
  ∧ authorization w' = authorization w
  ∧ location w' = location w
  ∧ pending w' = pending w.
Proof.
  intros request o w' Hfail Ho.
  split; [rewrite api_call_S; apply settle_failure; assumption |].
  unfold w'. rewrite noticed_toasts. simpl.
  rewrite notifications_by_kind. repeat split.
Qed.

End Failure.

(** ** Signing in *)

Section SignIn.

Variable server : nat → Config → Outcome.
Variable clock : nat → Z.

Local Abbreviation api := (api_call server clock).

(** [sign_in] by the ways its request can end. *)
Lemma sign_in_cases a (path : string) (body : Json) (welcome failure : string) w :
  sign_in a path body welcome failure w =
  let failed (e : Err) (w1 : World) :=
    Some (Resolved (mkOpResult false (Some (or_else (detail e) failure))),
          toast (ToastError (or_else (detail e) failure))
            (set_store (with_isLoading false) w1)) in
  match a (call_config POST path (Some body) no_config)
          (set_store (with_isLoading true) w) with
  | None => None
  | Some (Resolved response, w1) =>
      match resp_data response with
      | Some d =>
          Some (Resolved (mkOpResult true None),
                toast (ToastSuccess welcome)
                  (open_session (prop "user" (Some d)) (prop "access_token" (Some d))
                     (prop "refresh_token" (Some d)) w1))
      | None =>
          failed (type_error "Cannot destructure property 'access_token' of 'response.data' as it is undefined.") w1
      end
  | Some (Rejected e, w1) => failed e w1
  end.
Proof.
  unfold sign_in, try_catch, api_post, mbind, M_bind, bind, modify, mret, M_ret, ret.
  destruct (a (call_config POST path (Some body) no_config)
              (set_store (with_isLoading true) w)) as [[[response|e] w1]|];
    try reflexivity.
  unfold destructure. destruct (resp_data response); reflexivity.
Qed.


(** A sign-in whose request fails with anything but a 401 resolves with
    [success: false] and the [detail] of the response, or its own message
    when there is none; [isLoading] is reset and the session is left alone.
    The failure is reported by the interceptor, if it has a notice for it,
    and once more by the sign-in. *)
Theorem sign_in_failed fuel (path : string) (body : Json) (welcome failure : string) w :
  let request := call_config POST path (Some body) no_config in
  let w0 := set_store (with_isLoading true) w in
  let o := answer server clock request w0 in
  let e := axios_error (prepare clock request w0) o in
  let message := or_else (detail e) failure in
  succeeded o = None → unauthorized o = false →
  ∃ w',
    sign_in (api (S fuel)) path body welcome failure w =
      Some (Resolved (mkOpResult false (Some message)), w')
    ∧ store w' = with_isLoading false (store w)
    ∧ authorization w' = authorization w
    ∧ toasts w' = (toasts w ++ notifications e ++ [ToastError message])%list
    ∧ sent w' = (sent w ++ [prepare clock request w0])%list
    ∧ pending w' = pending w.
Proof.
  intros request w0 o e message Hfail Ho.
  exists (toast (ToastError message)
            (set_store (with_isLoading false) (noticed e (handed clock request w0)))).
  split.
  - rewrite sign_in_cases. fold request. fold w0. cbv zeta.
    rewrite api_call_S. fold o.
    rewrite (settle_failure server clock _ _ o _ Hfail Ho). reflexivity.
  - rewrite noticed_toasts. simpl. rewrite <- app_assoc. repeat split.
Qed.

(** However its request went, a sign-in that settles has resolved and has
    switched [isLoading] off, so that [App] shows its routes again; after a
    success the session is authenticated, the header of the client is set,
    and the login and register routes lead to the dashboard. *)
Theorem sign_in_settles_cleanly (a : Api) (path : string) (body : Json)
    (welcome failure : string) w r w' :
  sign_in a path body welcome failure w = Some (r, w') →
  ∃ result,
    r = Resolved result
    ∧ isLoading (store w') = false
    ∧ App (store w') ≠ LoadingSpinner
    ∧ (success result = true →
       isAuthenticated (store w') = true
       ∧ authorization w' = Some (bearer (accessToken (store w')))
       ∧ ∃ routes,
           App (store w') =
           Routes (Leaf "/login" (Navigate "/dashboard")
                   :: Leaf "/register" (Navigate "/dashboard") :: routes))
    ∧ (success result = false → ∃ message, error result = Some message).
Proof.
  rewrite sign_in_cases. cbv zeta.
  destruct (a (call_config POST path (Some body) no_config)
              (set_store (with_isLoading true) w)) as [[[response|e] w1]|];
    [| | discriminate].
  - destruct (resp_data response) as [d|]; intros H; injection H as <- <-;
      eexists; (split; [reflexivity |]); (split; [reflexivity |]);
      (split; [discriminate |]); split; try discriminate; intros _.
    + split; [reflexivity |]. split; [reflexivity |]. eexists. reflexivity.
    + eexists. reflexivity.
  - intros H; injection H as <- <-.
    eexists; (split; [reflexivity |]); (split; [reflexivity |]);
      (split; [discriminate |]); split; try discriminate; intros _.
    eexists. reflexivity.
Qed.

End SignIn.

(** ** The other actions of the auth store *)

Section Actions.

Variable server : nat → Config → Outcome.
Variable clock : nat → Z.

Local Abbreviation api := (api_call server clock).

(** [refreshAccessToken] with no refresh token in the session asks the
    server for nothing: it rejects with its own error and starts a logout,
    whose request is the only one to leave; the session is still there
    until that logout has run, and cleared after. *)
Theorem refreshAccessToken_without_token (a : Api) w :
  truthy (refreshToken (store w)) = false →
  refreshAccessToken server clock a w =
    Some (Rejected (js_error "No refresh token available"),
          logout_detached server clock w)
  ∧ sent (logout_detached server clock w) =
      (sent w ++ [prepare clock logout_request w])%list
  ∧ url (prepare clock logout_request w) = "/auth/logout"
  ∧ store (logout_detached server clock w) = store w
  ∧ authorization (logout_detached server clock w) = authorization w
  ∧ (∀ fuel w', drain server clock fuel (logout_detached server clock w) = Some w' →
       session_cleared w').
Proof.
  intros Ht.
  split; [| split; [reflexivity | split; [reflexivity | split; [reflexivity |
            split; [reflexivity |]]]]].
  - unfold refreshAccessToken, try_catch, mbind, M_bind, bind, gets.
    rewrite Ht. reflexivity.
  - intros fuel w' Hd. apply (drain_clears server clock fuel _ w' Hd). left.
    simpl. intros Hnil. apply app_eq_nil in Hnil. destruct Hnil as [_ Hnil].
    discriminate.
Qed.

(** [updateProfile] by the ways its request can end. *)
Lemma updateProfile_cases a profileData w :
  updateProfile a profileData w =
  match a (call_config PUT "/users/profile" profileData no_config) w with
  | None => None
  | Some (Resolved response, w1) =>
      Some (Resolved (mkOpResult true None),
            toast (ToastSuccess "Profile updated successfully!")
              (set_store (with_user (resp_data response)) w1))
  | Some (Rejected e, w1) =>
      Some (Resolved (mkOpResult false
                        (Some (or_else (detail e) "Profile update failed"))),
            toast (ToastError (or_else (detail e) "Profile update failed")) w1)
  end.
Proof.
  unfold updateProfile, try_catch, api_put, mbind, M_bind, bind, modify, mret, M_ret, ret.
  destruct (a (call_config PUT "/users/profile" profileData no_config) w)
    as [[[response|e] w1]|]; reflexivity.
Qed.

(** [updateProfile] whose request is not answered 401 never touches the
    tokens, [isAuthenticated] or the header.  On a 2xx answer the user of
    the session becomes the body of the response, whatever it is; on a
    failure the user stays and the result carries the [detail] of the
    response or the action's own message. *)
Theorem updateProfile_keeps_tokens fuel profileData w :
  let request := call_config PUT "/users/profile" profileData no_config in
  let o := answer server clock request w in
  unauthorized o = false →
  ∃ result w',
    updateProfile (api (S fuel)) profileData w = Some (Resolved result, w')
    ∧ accessToken (store w') = accessToken (store w)
    ∧ refreshToken (store w') = refreshToken (store w)
    ∧ isAuthenticated (store w') = isAuthenticated (store w)
    ∧ authorization w' = authorization w
    ∧ sent w' = (sent w ++ [prepare clock request w])%list
    ∧ (∀ r, succeeded o = Some r →
         result = mkOpResult true None ∧ user (store w') = resp_data r)
    ∧ (succeeded o = None →
         result = mkOpResult false
                    (Some (or_else (detail (axios_error (prepare clock request w) o))
                             "Profile update failed"))
         ∧ user (store w') = user (store w)).
Proof.
  intros request o Ho. rewrite updateProfile_cases. fold request.
  rewrite api_call_S. fold o.
  destruct (succeeded o) as [r|] eqn:Hok.
  - rewrite (settle_success server clock _ _ o r _ Hok).
    eexists _, _. split; [reflexivity |]. do 5 (split; [reflexivity |]). split.
    + intros r' Hr'. injection Hr' as <-. split; reflexivity.
    + intros Hnone. discriminate.
  - rewrite (settle_failure server clock _ _ o _ Hok Ho).
    eexists _, _. split; [reflexivity |]. rewrite noticed_toasts.
    do 5 (split; [reflexivity |]). split.
    + intros r' Hr'. discriminate.
    + intros _. split; reflexivity.
Qed.

End Actions.

(** ** Reloading the page *)

(** [initialize] changes nothing the second time. *)
Lemma initialize_idempotent w : initialize (initialize w) = initialize w.
Proof.
  unfold initialize.
  destruct (truthy (accessToken (store w))) eqn:Ht; simpl; rewrite Ht; reflexivity.
Qed.

(** The session survives a reload: the user and the two tokens come back
    from local storage, [isLoading] starts false again, the header of the
    client is set again exactly when an access token is held, and
    [isAuthenticated] is the stored flag, or true when a token is held.
    Nothing that was under way is left, and reloading again changes
    nothing. *)
Theorem reload_restores_session w :
  user (store (reload w)) = user (store w)
  ∧ accessToken (store (reload w)) = accessToken (store w)
  ∧ refreshToken (store (reload w)) = refreshToken (store w)
  ∧ isLoading (store (reload w)) = false
  ∧ isAuthenticated (store (reload w)) =
      truthy (accessToken (store w)) || isAuthenticated (store w)
  ∧ authorization (reload w) =
      (if truthy (accessToken (store w))
       then Some (bearer (accessToken (store w))) else None)
  ∧ pending (reload w) = []
  ∧ initialize (reload w) = reload w
  ∧ reload (reload w) = reload w.
Proof.
  unfold reload. rewrite initialize_idempotent.
  unfold initialize. simpl.
  destruct (truthy (accessToken (store w))) eqn:Ht; simpl; rewrite ?Ht;
    repeat split.
Qed.

(** ** Every action settles when the refusals end *)

Section AllSettle.

Variable server : nat → Config → Outcome.
Variable clock : nat → Z.
Variable bound : nat.

Local Abbreviation api := (api_call server clock).

Lemma handled_settles (call : M Response) w :
  (∃ r w', call w = Some (r, w')) →
  ∃ result w', handled call w = Some (Resolved result, w').
Proof.
  intros (r & w' & H). unfold handled, try_catch, mbind, M_bind, bind, mret, M_ret, ret.
  rewrite H. destruct r; eauto.
Qed.

(** If the server answers 401 to none but the first [bound] requests,
    then with fuel for the refusals that are left every request settles,
    every action of the auth store resolves, [logout] clears the session
    and every wrapper of [apiClient] resolves. *)
Theorem actions_settle_when_refusals_end fuel w :
  (∀ n request, (bound ≤ n)%nat → unauthorized (server n request) = false) →
  (bound - length (sent w) < fuel)%nat →
  (∀ config, ∃ r w', api fuel config w = Some (r, w'))
  ∧ (∀ email password,
       ∃ result w', login (api fuel) email password w = Some (Resolved result, w'))
  ∧ (∀ email password fullName,
       ∃ result w',
         register (api fuel) email password fullName w = Some (Resolved result, w'))
  ∧ (∀ token,
       ∃ result w', loginWithFacebook (api fuel) token w = Some (Resolved result, w'))
  ∧ (∃ r w', refreshAccessToken server clock (api fuel) w = Some (r, w'))
  ∧ (∀ profileData,
       ∃ result w', updateProfile (api fuel) profileData w = Some (Resolved result, w'))
  ∧ (∃ w', logout (api fuel) w = Some (Resolved tt, w') ∧ session_cleared w')
  ∧ (∀ u d config,
       (∃ result w', apiClient_get (api fuel) u config w = Some (Resolved result, w'))
       ∧ (∃ result w', apiClient_post (api fuel) u d config w = Some (Resolved result, w'))
       ∧ (∃ result w', apiClient_put (api fuel) u d config w = Some (Resolved result, w'))
       ∧ (∃ result w', apiClient_delete (api fuel) u config w = Some (Resolved result, w'))).
Proof.
  intros Hend Hfuel.
  assert (Hcall : ∀ config w0, sent w0 = sent w →
            ∃ r w', api fuel config w0 = Some (r, w')).
  { intros config w0 Hsent. apply (api_call_settles server clock bound Hend).
    rewrite Hsent. exact Hfuel. }
  assert (Hsign : ∀ (path : string) (body : Json) (welcome failure : string),
            ∃ result w',
              sign_in (api fuel) path body welcome failure w = Some (Resolved result, w')).
  { intros path body welcome failure. rewrite sign_in_cases. cbv zeta.
    destruct (Hcall (call_config POST path (Some body) no_config)
                (set_store (with_isLoading true) w) eq_refl) as (r & w1 & ->).
    destruct r as [response|e]; [destruct (resp_data response) |]; eauto. }
  split; [intros config; apply Hcall; reflexivity |].
  split; [intros; apply Hsign |].
  split; [intros; apply Hsign |].
  split; [intros; apply Hsign |].
  split.
  { destruct (truthy (refreshToken (store w))) eqn:Ht.
    - rewrite refreshAccessToken_held by exact Ht.
      destruct (Hcall (refresh_request w) w eq_refl) as (r & w1 & ->).
      destruct r as [response|e]; [destruct (resp_data response) |]; eauto.
    - unfold refreshAccessToken, try_catch, mbind, M_bind, bind, gets.
      rewrite Ht. simpl. eauto. }
  split.
  { intros profileData. rewrite updateProfile_cases.
    destruct (Hcall (call_config PUT "/users/profile" profileData no_config) w eq_refl)
      as (r & w1 & ->).
    destruct r; eauto. }
  split; [apply (logout_settles_when_refusals_end server clock bound Hend), Hfuel |].
  intros u d config.
  repeat split; apply handled_settles, Hcall; reflexivity.
Qed.

End AllSettle.

(** ** The token of the session on a request *)


(** ** The dashboard store *)

Section Dashboard.

Import useDashboardStore.

Variable server : nat → Config → Outcome.
Variable clock : nat → Z.


(** The request of [fetchDashboardData]. *)
Lemma fetch_begin_request pageId d w :
  let config :=
    call_config GET ("/analytics/dashboard/" +:+ to_string pageId) None
      (mkConfig "" GET {[ "days" := PNum (days (dateRange d)) ]} ∅ None false) in
  fetch_begin server clock pageId d w =
    (mkState (dashboardData d) (selectedPage d) (dateRange d) true None,
     (prepare clock config w, answer server clock config w),
     handed clock config w)
  ∧ url (prepare clock config w) = "/analytics/dashboard/" +:+ to_string pageId
  ∧ params (prepare clock config w) !! "days" = Some (PNum (days (dateRange d)))
  ∧ params (prepare clock config w) !! "_t" = Some (PNum (clock (length (sent w)))).
Proof.
  intros config. split; [reflexivity |]. split; [reflexivity |]. simpl. split.
  - rewrite lookup_insert_ne by discriminate. apply lookup_singleton_eq.
  - apply lookup_insert_eq.
Qed.

(** [fetchDashboardData] whose request is not answered 401 always ends with
    [isLoading] off and never throws.  Its one request asks for the page
    with the days of the range and the time stamp.  A 2xx answer puts the
    body in [dashboardData] and leaves no error; a failure keeps the data
    that was there, sets [error] to the [detail] of the response or to the
    store's own message, and shows it after the notice of the
    interceptor. *)
Theorem fetchDashboardData_outcome (a : Api) pageId d w :
  let config :=
    call_config GET ("/analytics/dashboard/" +:+ to_string pageId) None
      (mkConfig "" GET {[ "days" := PNum (days (dateRange d)) ]} ∅ None false) in
  let request := prepare clock config w in
  let o := answer server clock config w in
  let e := axios_error request o in
  let message := or_else (detail e) "Failed to fetch dashboard data" in
  unauthorized o = false →
  ∃ d' w',
    fetchDashboardData server clock a pageId d w = Some (d', w')
    ∧ isLoading d' = false
    ∧ selectedPage d' = selectedPage d
    ∧ dateRange d' = dateRange d
    ∧ sent w' = (sent w ++ [request])%list
    ∧ params request !! "days" = Some (PNum (days (dateRange d)))
    ∧ params request !! "_t" = Some (PNum (clock (length (sent w))))
    ∧ store w' = store w
    ∧ (∀ r, succeeded o = Some r →
         dashboardData d' = resp_data r ∧ error d' = None ∧ toasts w' = toasts w)
    ∧ (succeeded o = None →
         dashboardData d' = dashboardData d ∧ error d' = Some message
         ∧ toasts w' = (toasts w ++ notifications e ++ [ToastError message])%list).
Proof.
  intros config request o e message Ho.
  destruct (fetch_begin_request pageId d w) as (Hbegin & _ & Hdays & Hstamp).
  fold config in Hbegin, Hdays, Hstamp. fold request in Hbegin, Hdays, Hstamp.
  fold o in Hbegin.
  unfold fetchDashboardData. rewrite Hbegin. unfold fetch_end. simpl fst. simpl snd.
  destruct (succeeded o) as [r|] eqn:Hok.
  - rewrite (settle_success server clock a request o r _ Hok).
    eexists _, _. split; [reflexivity |]. do 4 (split; [reflexivity |]).
    split; [exact Hdays |]. split; [exact Hstamp |]. split; [reflexivity |]. split.
    + intros r' Hr'. injection Hr' as <-. repeat split.
    + intros Hnone. discriminate.
  - rewrite (settle_failure server clock a request o _ Hok Ho).
    eexists _, _. split; [reflexivity |]. rewrite noticed_toasts.
    do 3 (split; [reflexivity |]). split; [reflexivity |].
    split; [exact Hdays |]. split; [exact Hstamp |]. split; [reflexivity |]. split.
    + intros r' Hr'. discriminate.
    + intros _. split; [reflexivity |]. split; [reflexivity |].
      simpl. rewrite <- app_assoc. reflexivity.
Qed.

(** The two setters fetch for what they have just set: [setSelectedPage]
    for the [page_id] of the new page, [setDateRange] for the selected page
    with the days of the new range.  Without a page neither sends anything;
    [setSelectedPage] then only drops the selection and leaves the data of
    the page that was shown. *)
Theorem setters_fetch_what_they_set page start end_ d w :
  (truthy page = true →
   ∃ d' w' request o,
     setSelectedPage server clock page d w = (d', w', Some (request, o))
     ∧ selectedPage d' = page ∧ isLoading d' = true
     ∧ url request = "/analytics/dashboard/" +:+ to_string (prop "page_id" page)
     ∧ params request !! "days" = Some (PNum (days (dateRange d)))
     ∧ sent w' = (sent w ++ [request])%list)
  ∧ (truthy page = false →
     setSelectedPage server clock page d w =
       (mkState (dashboardData d) page (dateRange d) (isLoading d) (error d), w, None))
  ∧ (truthy (selectedPage d) = true →
     ∃ d' w' request o,
       setDateRange server clock start end_ d w = (d', w', Some (request, o))
       ∧ dateRange d' = mkDateRange start end_ ∧ isLoading d' = true
       ∧ url request =
           "/analytics/dashboard/" +:+ to_string (prop "page_id" (selectedPage d))
       ∧ params request !! "days" = Some (PNum (days (mkDateRange start end_)))
       ∧ sent w' = (sent w ++ [request])%list)
  ∧ (truthy (selectedPage d) = false →
     setDateRange server clock start end_ d w =
       (mkState (dashboardData d) (selectedPage d) (mkDateRange start end_)
                (isLoading d) (error d), w, None)).
Proof.
  split; [| split; [| split]].
  - intros Ht. unfold setSelectedPage. rewrite Ht.
    destruct (fetch_begin_request (prop "page_id" page)
                (mkState (dashboardData d) page (dateRange d) (isLoading d) (error d)) w)
      as (Hbegin & Hurl & Hdays & _).
    rewrite Hbegin. eexists _, _, _, _. split; [reflexivity |].
    split; [reflexivity |]. split; [reflexivity |].
    split; [exact Hurl |]. split; [exact Hdays |]. reflexivity.
  - intros Ht. unfold setSelectedPage. rewrite Ht. reflexivity.
  - intros Ht. unfold setDateRange. simpl selectedPage. rewrite Ht.
    destruct (fetch_begin_request (prop "page_id" (selectedPage d))
                (mkState (dashboardData d) (selectedPage d) (mkDateRange start end_)
                   (isLoading d) (error d)) w)
      as (Hbegin & Hurl & Hdays & _).
    rewrite Hbegin. eexists _, _, _, _. split; [reflexivity |].
    split; [reflexivity |]. split; [reflexivity |].
    split; [exact Hurl |]. split; [exact Hdays |]. reflexivity.
  - intros Ht. unfold setDateRange. simpl selectedPage. rewrite Ht. reflexivity.
Qed.

(** Two selections whose requests are both under way: the answers may come
    in either order, and the one that comes last fills [dashboardData].
    When the answer for the first page comes after the one for the second,
    the store ends with the second page selected and the data of the
    first; in between [isLoading] is already off although a request is
    still under way. *)
Theorem last_answer_wins (a : Api) pageA pageB d w d1 w1 xA d2 w2 xB rA rB :
  setSelectedPage server clock pageA d w = (d1, w1, Some xA) →
  setSelectedPage server clock pageB d1 w1 = (d2, w2, Some xB) →
  succeeded xA.2 = Some rA →
  succeeded xB.2 = Some rB →
  ∃ d3 d4,
    fetch_end server clock a xB d2 w2 = Some (d3, w2)
    ∧ fetch_end server clock a xA d3 w2 = Some (d4, w2)
    ∧ isLoading d3 = false
    ∧ dashboardData d3 = resp_data rB
    ∧ selectedPage d4 = pageB
    ∧ dashboardData d4 = resp_data rA
    ∧ isLoading d4 = false
    ∧ error d4 = None.
Proof.
  intros HA HB HrA HrB.
  unfold fetch_end.
  rewrite (settle_success server clock a xB.1 xB.2 rB w2 HrB).
  eexists _, _. split; [reflexivity |].
  rewrite (settle_success server clock a xA.1 xA.2 rA w2 HrA).
  split; [reflexivity |]. simpl.
  unfold setSelectedPage in HB.
  destruct (truthy pageB); [| discriminate].
  destruct (fetch_begin_request (prop "page_id" pageB)
              (mkState (dashboardData d1) pageB (dateRange d1) (isLoading d1) (error d1)) w1)
    as (Hbegin & _).
  rewrite Hbegin in HB. injection HB as <- _ _. repeat split.
Qed.

End Dashboard.

(** ** Concrete runs of the further properties *)

Lemma failed_request_is_rejected_after_its_notice_witness :
  api_call forbidden wall_clock 1 get_pages signed_in =
  Some (Rejected (axios_error (prepare wall_clock get_pages signed_in) (answered 403 None)),
        toast (ToastError "You do not have permission to perform this action")
          (handed wall_clock get_pages signed_in)).
Proof.
  exact (proj1 (failed_request_is_rejected_after_its_notice forbidden wall_clock 0
                  get_pages signed_in eq_refl eq_refl)).
Defined.


Lemma sign_in_failed_witness :
  ∃ w',
    register (api_call email_taken wall_clock 1)
             (Some (JStr "ann@example.org")) (Some (JStr "secret")) (Some (JStr "Ann")) start =
    Some (Resolved (mkOpResult false (Some (JStr "Email already registered"))), w')
    ∧ store w' = store start.
Proof.
  destruct (sign_in_failed email_taken wall_clock 0 "/auth/register"
              (obj [("email", Some (JStr "ann@example.org"));
                    ("password", Some (JStr "secret"));
                    ("full_name", Some (JStr "Ann"))])
              "Account created successfully!" "Registration failed" start
              eq_refl eq_refl) as (w' & Hcall & Hstore & _).
  exists w'. split; [exact Hcall | exact Hstore].
Defined.

Lemma sign_in_settles_cleanly_witness :
  isLoading (store logged_in) = false
  ∧ isAuthenticated (store logged_in) = true.
Proof.
  destruct (sign_in_settles_cleanly (api_call sign_in_accepted wall_clock 1)
              "/auth/login"
              (obj [("email", Some (JStr "ann@example.org"));
                    ("password", Some (JStr "secret"))])
              "Successfully logged in!" "Login failed" start
              (Resolved (mkOpResult true None)) logged_in eq_refl)
    as (result & Hresult & Hloading & _ & Hsuccess & _).
  injection Hresult as <-.
  split; [exact Hloading | exact (proj1 (Hsuccess eq_refl))].
Defined.

Lemma refreshAccessToken_without_token_witness :
  refreshAccessToken always_unauthorized wall_clock
    (api_call always_unauthorized wall_clock 0) no_refresh_token =
  Some (Rejected (js_error "No refresh token available"),
        logout_detached always_unauthorized wall_clock no_refresh_token).
Proof.
  exact (proj1 (refreshAccessToken_without_token always_unauthorized wall_clock
                  (api_call always_unauthorized wall_clock 0) no_refresh_token eq_refl)).
Defined.

Lemma updateProfile_keeps_tokens_witness :
  ∃ w',
    updateProfile (api_call profile_saved wall_clock 1) (Some (JStr "ann b.")) signed_in =
    Some (Resolved (mkOpResult true None), w')
    ∧ user (store w') = Some (JStr "ann b.")
    ∧ accessToken (store w') = Some (JStr "old").
Proof.
  destruct (updateProfile_keeps_tokens profile_saved wall_clock 0 (Some (JStr "ann b."))
              signed_in eq_refl)
    as (result & w' & Hcall & Htoken & _ & _ & _ & _ & Hok & _).
  destruct (Hok (mkResponse 200 ∅ (Some (JStr "ann b."))) eq_refl) as [Hresult Huser].
  exists w'. rewrite Hcall, Hresult. split; [reflexivity |].
  split; [exact Huser | exact Htoken].
Defined.

Lemma refresh_accepted_refusals_end n request :
  (1 ≤ n)%nat → unauthorized (refresh_accepted n request) = false.
Proof.
  intros Hn. destruct n as [|[|[|n]]]; [lia | reflexivity | reflexivity | reflexivity].
Qed.

Lemma actions_settle_when_refusals_end_witness :
  ∃ r w', api_call refresh_accepted wall_clock 2 get_pages signed_in = Some (r, w').
Proof.
  apply (proj1 (actions_settle_when_refusals_end refresh_accepted wall_clock 1 2
                  signed_in refresh_accepted_refusals_end ltac:(simpl; lia))).
Defined.


Lemma fetchDashboardData_outcome_witness :
  ∃ d' w',
    useDashboardStore.fetchDashboardData insights_server wall_clock
      (api_call insights_server wall_clock 0) (Some (JStr "p1")) fresh_dashboard signed_in =
    Some (d', w')
    ∧ useDashboardStore.dashboardData d' = Some (JStr "insights of p1")
    ∧ useDashboardStore.isLoading d' = false.
Proof.
  destruct (fetchDashboardData_outcome insights_server wall_clock
              (api_call insights_server wall_clock 0) (Some (JStr "p1"))
              fresh_dashboard signed_in eq_refl)
    as (d' & w' & Hcall & Hloading & _ & _ & _ & _ & _ & _ & Hok & _).
  destruct (Hok (mkResponse 200 ∅ (Some (JStr "insights of p1"))) eq_refl) as (Hdata & _).
  exists d', w'. split; [exact Hcall |]. split; [exact Hdata | exact Hloading].
Defined.

Lemma last_answer_wins_witness :
  ∃ d3 d4,
    useDashboardStore.fetch_end insights_server wall_clock
      (api_call insights_server wall_clock 0)
      (prepare wall_clock (dashboard_request "p2") one_asked,
       answer insights_server wall_clock (dashboard_request "p2") one_asked)
      two_selected two_asked = Some (d3, two_asked)
    ∧ useDashboardStore.fetch_end insights_server wall_clock
        (api_call insights_server wall_clock 0)
        (prepare wall_clock (dashboard_request "p1") signed_in,
         answer insights_server wall_clock (dashboard_request "p1") signed_in)
        d3 two_asked = Some (d4, two_asked)
    ∧ useDashboardStore.selectedPage d4 = page_two
    ∧ useDashboardStore.dashboardData d4 = Some (JStr "insights of p1").
Proof.
  destruct (last_answer_wins insights_server wall_clock
              (api_call insights_server wall_clock 0)
              page_one page_two fresh_dashboard signed_in
              one_selected one_asked
              (prepare wall_clock (dashboard_request "p1") signed_in,
               answer insights_server wall_clock (dashboard_request "p1") signed_in)
              two_selected two_asked
              (prepare wall_clock (dashboard_request "p2") one_asked,
               answer insights_server wall_clock (dashboard_request "p2") one_asked)
              (mkResponse 200 ∅ (Some (JStr "insights of p1")))
              (mkResponse 200 ∅ (Some (JStr "insights of p2")))
              eq_refl eq_refl eq_refl eq_refl)
    as (d3 & d4 & Hfirst & Hsecond & _ & _ & Hselected & Hdata & _).
  exists d3, d4. repeat split; assumption.
Defined.

(** ** More on the client and the store *)

Section More.

Variable server : nat → Config → Outcome.
Variable clock : nat → Z.

Local Abbreviation api := (api_call server clock).

(** A request that carries [_retry: true] is final whatever the answer,
    a 401 included: it settles at once, one request has left, no refresh
    and no logout is started, and the session is as it was. *)
Theorem marked_request_is_final fuel config w :
  _retry config = true →
  ∃ r w',
    api (S fuel) config w = Some (r, w')
    ∧ sent w' = (sent w ++ [prepare clock config w])%list
    ∧ store w' = store w
    ∧ authorization w' = authorization w
    ∧ pending w' = pending w
    ∧ location w' = location w
    ∧ (∀ response, succeeded (answer server clock config w) = Some response →
         r = Resolved response)
    ∧ (succeeded (answer server clock config w) = None →
         r = Rejected (axios_error (prepare clock config w) (answer server clock config w))).
Proof.
  intros Hflag. rewrite api_call_S.
  destruct (succeeded (answer server clock config w)) as [response|] eqn:Hok.
  - rewrite (settle_success server clock _ _ _ response _ Hok).
    eexists _, _. split; [reflexivity |]. do 5 (split; [reflexivity |]). split.
    + intros response' Hr. injection Hr as <-. reflexivity.
    + intros Hnone. discriminate.
  - assert (Hsettle :
      settle server clock (api fuel) (prepare clock config w)
        (answer server clock config w) (handed clock config w) =
      on_rejected server clock (api fuel)
        (axios_error (prepare clock config w) (answer server clock config w))
        (handed clock config w)).
    { destruct (answer server clock config w) as [r|message]; [| reflexivity].
      simpl in Hok. destruct (validateStatus (status r)) eqn:Hv; [discriminate |].
      apply settle_rejected, Hv. }
    rewrite Hsettle.
    rewrite (on_rejected_final server clock (api fuel) (prepare clock config w)
               (answer server clock config w) (handed clock config w) Hflag).
    eexists _, _. split; [reflexivity |]. rewrite noticed_toasts.
    do 5 (split; [reflexivity |]). split.
    + intros response' Hr. discriminate.
    + intros _. reflexivity.
Qed.

(** [logout] whose request is not answered 401: the one request leaves with
    the token of the session still on it, and whether it succeeds or fails
    the session is cleared, the header is removed and the success message is
    shown; a failure is only written to the console, after the notice of the
    interceptor. *)
Theorem logout_outcome fuel w :
  let o := answer server clock logout_request w in
  let e := axios_error (prepare clock logout_request w) o in
  unauthorized o = false →
  ∃ w',
    logout (api (S fuel)) w = Some (Resolved tt, w')
    ∧ store w' = initial_store
    ∧ authorization w' = None
    ∧ sent w' = (sent w ++ [prepare clock logout_request w])%list
    ∧ headers (prepare clock logout_request w) !! "Authorization" = authorization w
    ∧ (∀ response, succeeded o = Some response →
         toasts w' = (toasts w ++ [ToastSuccess "Successfully logged out"])%list
         ∧ console w' = console w)
    ∧ (succeeded o = None →
         toasts w' =
           (toasts w ++ notifications e ++ [ToastSuccess "Successfully logged out"])%list
         ∧ console w' = (console w ++ [e])%list).
Proof.
  intros o e Ho.
  assert (Hheader : headers (prepare clock logout_request w) !! "Authorization" =
                    authorization w).
  { simpl. rewrite lookup_union_r by apply lookup_empty.
    unfold default_headers. destruct (authorization w) as [token|].
    - apply lookup_insert_eq.
    - rewrite lookup_insert_ne by discriminate. apply lookup_singleton_ne. discriminate. }
  unfold logout, api_post. fold logout_request.
  unfold logout_after, mbind, M_bind, bind, try_catch, modify, mret, M_ret, ret.
  rewrite api_call_S. fold o.
  destruct (succeeded o) as [response|] eqn:Hok.
  - rewrite (settle_success server clock _ _ o response _ Hok).
    eexists. split; [reflexivity |]. do 3 (split; [reflexivity |]).
    split; [exact Hheader |]. split.
    + intros response' _. split; reflexivity.
    + intros Hnone. discriminate.
  - rewrite (settle_failure server clock _ _ o _ Hok Ho).
    eexists. split; [reflexivity |]. rewrite noticed_toasts.
    do 3 (split; [reflexivity |]). split; [exact Hheader |]. split.
    + intros response' Hr. discriminate.
    + intros _. split; [| reflexivity]. simpl. rewrite <- app_assoc. reflexivity.
Qed.


End More.

Lemma marked_request_is_final_witness :
  ∃ w',
    api_call always_unauthorized wall_clock 1 second_attempt signed_in =
    Some (Rejected (axios_error (prepare wall_clock second_attempt signed_in)
                      (answered 401 None)), w')
    ∧ store w' = store signed_in
    ∧ pending w' = [].
Proof.
  destruct (marked_request_is_final always_unauthorized wall_clock 0 second_attempt
              signed_in eq_refl)
    as (r & w' & Hcall & _ & Hstore & _ & Hpending & _ & _ & Hfail).
  exists w'. rewrite Hcall, (Hfail eq_refl).
  split; [reflexivity |]. split; [exact Hstore | exact Hpending].
Defined.

Lemma logout_outcome_witness :
  ∃ w',
    logout (api_call forbidden wall_clock 1) signed_in = Some (Resolved tt, w')
    ∧ store w' = initial_store
    ∧ authorization w' = None.
Proof.
  destruct (logout_outcome forbidden wall_clock 0 signed_in eq_refl)
    as (w' & Hcall & Hstore & Hheader & _).
  exists w'. split; [exact Hcall |]. split; [exact Hstore | exact Hheader].
Defined.


(** ** Share links *)

Section ShareLinks.

Import Stdlib.Strings.Ascii.
Import constants.

Lemma chars_app (a b : string) :
  String.list_ascii_of_string (a +:+ b) =
  (String.list_ascii_of_string a ++ String.list_ascii_of_string b)%list.
Proof. induction a as [|c a IH]; simpl; [reflexivity | rewrite IH; reflexivity]. Qed.

Lemma occurrences_app c (a b : string) :
  occurrences c (a +:+ b) = (occurrences c a + occurrences c b)%nat.
Proof. unfold occurrences. rewrite chars_app. apply count_occ_app. Qed.

Lemma sixteen (n : N) :
  (n < 16)%N →
  n = 0%N ∨ n = 1%N ∨ n = 2%N ∨ n = 3%N ∨ n = 4%N ∨ n = 5%N ∨ n = 6%N ∨ n = 7%N
  ∨ n = 8%N ∨ n = 9%N ∨ n = 10%N ∨ n = 11%N ∨ n = 12%N ∨ n = 13%N ∨ n = 14%N
  ∨ n = 15%N.
Proof. lia. Qed.

Lemma hex_digit_unreserved n : (n < 16)%N → unreserved (hex_digit n) = true.
Proof.
  intros H. apply sixteen in H.
  repeat (destruct H as [-> | H]; [reflexivity |]). subst. reflexivity.
Qed.

Lemma hex_digit_inj a b :
  (a < 16)%N → (b < 16)%N → hex_digit a = hex_digit b → a = b.
Proof.
  intros Ha Hb H.
  assert (Hvalue : ∀ n, (n < 16)%N →
            (N_of_ascii (hex_digit n)
             - (if (N_of_ascii (hex_digit n) <? 58)%N then 48 else 55))%N = n).
  { intros n Hn. apply sixteen in Hn.
    repeat (destruct Hn as [-> | Hn]; [reflexivity |]). subst. reflexivity. }
  rewrite <- (Hvalue a Ha), <- (Hvalue b Hb), H. reflexivity.
Qed.

Lemma byte_halves c : (N_of_ascii c / 16 < 16)%N ∧ (N_of_ascii c mod 16 < 16)%N.
Proof.
  pose proof (N_ascii_bounded c) as Hc. split.
  - apply N.Div0.div_lt_upper_bound. exact Hc.
  - apply N.mod_lt. discriminate.
Qed.

Lemma percent_inj c c' : percent c = percent c' → c = c'.
Proof.
  unfold percent. intros H. injection H as H1 H2.
  destruct (byte_halves c) as [Hhi Hlo]. destruct (byte_halves c') as [Hhi' Hlo'].
  apply hex_digit_inj in H1; [| assumption | assumption].
  apply hex_digit_inj in H2; [| assumption | assumption].
  rewrite <- (ascii_N_embedding c), <- (ascii_N_embedding c').
  f_equal.
  rewrite (N.div_mod (N_of_ascii c) 16), (N.div_mod (N_of_ascii c') 16) by discriminate.
  rewrite H1, H2. reflexivity.
Qed.

(** What [encodeURIComponent] writes: unreserved characters and [%]. *)
Lemma encoded_chars s :
  Forall (fun c => unreserved c = true ∨ c = "%"%char)
         (String.list_ascii_of_string (encodeURIComponent s)).
Proof.
  induction s as [|c s IH]; simpl; [constructor |].
  rewrite chars_app. apply Forall_app. split; [| exact IH].
  destruct (unreserved c) eqn:Hc; simpl.
  - constructor; [left; exact Hc | constructor].
  - destruct (byte_halves c) as [Hhi Hlo].
    constructor; [right; reflexivity |].
    constructor; [left; apply hex_digit_unreserved; exact Hhi |].
    constructor; [left; apply hex_digit_unreserved; exact Hlo | constructor].
Qed.

Lemma encoded_occurrences c s :
  unreserved c = false → c ≠ "%"%char → occurrences c (encodeURIComponent s) = 0%nat.
Proof.
  intros Hc Hp. unfold occurrences. apply count_occ_not_In.
  intros Hin. pose proof (encoded_chars s) as Hall.
  rewrite Forall_forall in Hall. apply list_elem_of_In in Hin.
  destruct (Hall c Hin) as [H|H]; congruence.
Qed.

Lemma encodeURIComponent_inj s s' :
  encodeURIComponent s = encodeURIComponent s' → s = s'.
Proof.
  revert s'. induction s as [|c s IH]; intros [|c' s']; simpl.
  - reflexivity.
  - destruct (unreserved c'); discriminate.
  - destruct (unreserved c); discriminate.
  - destruct (unreserved c) eqn:Hc, (unreserved c') eqn:Hc'; simpl; intros H.
    + injection H as -> H. f_equal. apply IH, H.
    + injection H as -> _. vm_compute in Hc. discriminate.
    + injection H as <- _. vm_compute in Hc'. discriminate.
    + injection H as H1 H2 H. f_equal; [| apply IH, H].
      apply percent_inj. unfold percent. rewrite H1, H2. reflexivity.
Qed.

Lemma append_inv_head (p a b : string) : p +:+ a = p +:+ b → a = b.
Proof.
  induction p as [|c p IH]; simpl; [trivial |].
  intros H. injection H as H. apply IH, H.
Qed.

Lemma split_at c (x x' y y' : string) :
  occurrences c x = 0%nat → occurrences c x' = 0%nat →
  x +:+ String c y = x' +:+ String c y' → x = x' ∧ y = y'.
Proof.
  unfold occurrences.
  revert x'. induction x as [|a x IH]; intros [|a' x']; simpl; intros Hx Hx' H.
  - injection H as ->. split; reflexivity.
  - injection H as <- _. destruct (ascii_dec c c); [discriminate | contradiction].
  - injection H as -> _. destruct (ascii_dec c c); [discriminate | contradiction].
  - injection H as -> H.
    destruct (ascii_dec a' c); [discriminate |].
    destruct (IH x' Hx Hx' H) as [-> ->]. split; reflexivity.
Qed.

(** Whatever the url and the text, each share link keeps the shape of its
    template: what is filled in consists of unreserved characters and [%]
    alone, so the link has the one [?] and the [&] and [=] of the template
    and no others, no [#] and no blank. *)
Theorem share_links_keep_their_shape url text :
  Forall (fun c => unreserved c = true ∨ c = "%"%char)
         (String.list_ascii_of_string (encodeURIComponent url))
  ∧ (occurrences "?" (SOCIAL_SHARE_URLS.twitter url text) = 1
     ∧ occurrences "&" (SOCIAL_SHARE_URLS.twitter url text) = 1
     ∧ occurrences "=" (SOCIAL_SHARE_URLS.twitter url text) = 2
     ∧ occurrences "#" (SOCIAL_SHARE_URLS.twitter url text) = 0
     ∧ occurrences " " (SOCIAL_SHARE_URLS.twitter url text) = 0)%nat
  ∧ (occurrences "?" (SOCIAL_SHARE_URLS.email url text) = 1
     ∧ occurrences "&" (SOCIAL_SHARE_URLS.email url text) = 1
     ∧ occurrences "=" (SOCIAL_SHARE_URLS.email url text) = 2
     ∧ occurrences "#" (SOCIAL_SHARE_URLS.email url text) = 0
     ∧ occurrences " " (SOCIAL_SHARE_URLS.email url text) = 0)%nat
  ∧ (occurrences "?" (SOCIAL_SHARE_URLS.facebook url text) = 1
     ∧ occurrences "&" (SOCIAL_SHARE_URLS.facebook url text) = 0
     ∧ occurrences "=" (SOCIAL_SHARE_URLS.facebook url text) = 1
     ∧ occurrences "#" (SOCIAL_SHARE_URLS.facebook url text) = 0
     ∧ occurrences " " (SOCIAL_SHARE_URLS.facebook url text) = 0)%nat
  ∧ (occurrences "?" (SOCIAL_SHARE_URLS.linkedin url text) = 1
     ∧ occurrences "&" (SOCIAL_SHARE_URLS.linkedin url text) = 0
     ∧ occurrences "=" (SOCIAL_SHARE_URLS.linkedin url text) = 1
     ∧ occurrences "#" (SOCIAL_SHARE_URLS.linkedin url text) = 0
     ∧ occurrences " " (SOCIAL_SHARE_URLS.linkedin url text) = 0)%nat.
Proof.
  split; [apply encoded_chars |].
  unfold SOCIAL_SHARE_URLS.twitter, SOCIAL_SHARE_URLS.email,
    SOCIAL_SHARE_URLS.facebook, SOCIAL_SHARE_URLS.linkedin.
  repeat split; rewrite !occurrences_app;
    rewrite !encoded_occurrences by (reflexivity || discriminate); reflexivity.
Qed.

(** A share link tells what was shared: two tweet links, or two mail links,
    are equal only for the same url and the same text, and two Facebook or
    LinkedIn links only for the same url (they ignore the text). *)
Theorem share_links_tell_their_content url text url' text' :
  (SOCIAL_SHARE_URLS.twitter url text = SOCIAL_SHARE_URLS.twitter url' text' →
   url = url' ∧ text = text')
  ∧ (SOCIAL_SHARE_URLS.email url text = SOCIAL_SHARE_URLS.email url' text' →
     url = url' ∧ text = text')
  ∧ (SOCIAL_SHARE_URLS.facebook url text = SOCIAL_SHARE_URLS.facebook url' text' ↔
     url = url')
  ∧ (SOCIAL_SHARE_URLS.linkedin url text = SOCIAL_SHARE_URLS.linkedin url' text' ↔
     url = url').
Proof.
  unfold SOCIAL_SHARE_URLS.twitter, SOCIAL_SHARE_URLS.email,
    SOCIAL_SHARE_URLS.facebook, SOCIAL_SHARE_URLS.linkedin.
  split; [| split; [| split]].
  - intros H. apply append_inv_head in H.
    change ("&text=" +:+ encodeURIComponent text)
      with (String "&" ("text=" +:+ encodeURIComponent text)) in H.
    change ("&text=" +:+ encodeURIComponent text')
      with (String "&" ("text=" +:+ encodeURIComponent text')) in H.
    apply split_at in H;
      [| apply encoded_occurrences; [reflexivity | discriminate] ..].
    destruct H as [Hurl Htext]. apply append_inv_head in Htext.
    split; apply encodeURIComponent_inj; assumption.
  - intros H. apply append_inv_head in H.
    change ("&body=" +:+ encodeURIComponent url)
      with (String "&" ("body=" +:+ encodeURIComponent url)) in H.
    change ("&body=" +:+ encodeURIComponent url')
      with (String "&" ("body=" +:+ encodeURIComponent url')) in H.
    apply split_at in H;
      [| apply encoded_occurrences; [reflexivity | discriminate] ..].
    destruct H as [Htext Hurl]. apply append_inv_head in Hurl.
    split; apply encodeURIComponent_inj; assumption.
  - split; [| intros ->; reflexivity].
    intros H. apply append_inv_head in H. apply encodeURIComponent_inj, H.
  - split; [| intros ->; reflexivity].
    intros H. apply append_inv_head in H. apply encodeURIComponent_inj, H.
Qed.

End ShareLinks.

(** ** The pattern of an e-mail address *)

Section Email.

Import RegExp VALIDATION.

Lemma matches_Seq_inv r1 r2 s :
  matches (Seq r1 r2) s →
  ∃ s1 s2, s = (s1 ++ s2)%list ∧ matches r1 s1 ∧ matches r2 s2.
Proof. inversion 1; subst. eauto. Qed.

Lemma nullable_matches r : nullable r = true ↔ matches r [].
Proof.
  induction r as [| | p | r1 IH1 r2 IH2 | r1 IH1 r2 IH2 | r IH]; simpl.
  - split; [discriminate | inversion 1].
  - split; [constructor | reflexivity].
  - split; [discriminate | inversion 1].
  - rewrite andb_true_iff, IH1, IH2. split.
    + intros [H1 H2]. apply (matches_Seq _ _ [] [] H1 H2).
    + intros H. apply matches_Seq_inv in H as (s1 & s2 & Heq & H1 & H2).
      symmetry in Heq. apply app_eq_nil in Heq as [-> ->]. split; assumption.
  - rewrite orb_true_iff, IH1, IH2. split.
    + intros [H|H]; [apply matches_Alt_l | apply matches_Alt_r]; exact H.
    + inversion 1; subst; [left | right]; assumption.
  - split; [constructor | reflexivity].
Qed.

Lemma matches_Star_cons r c s :
  matches (Star r) (c :: s) →
  ∃ s1 s2, s = (s1 ++ s2)%list ∧ matches r (c :: s1) ∧ matches (Star r) s2.
Proof.
  remember (Star r) as q eqn:Hq. remember (c :: s) as t eqn:Ht.
  intros H. revert Hq Ht.
  induction H as [| | | | | | r' s1 s2 H1 _ H2 IH2]; try discriminate.
  intros Hq Ht. injection Hq as ->.
  destruct s1 as [|c' s1]; simpl in Ht.
  - apply IH2; [reflexivity | exact Ht].
  - injection Ht as -> <-. exists s1, s2. split; [reflexivity | split; assumption].
Qed.

Lemma derive_matches r : ∀ c s, matches (derive c r) s ↔ matches r (c :: s).
Proof.
  induction r as [| | p | r1 IH1 r2 IH2 | r1 IH1 r2 IH2 | r IH]; intros c s; simpl.
  - split; inversion 1.
  - split; inversion 1.
  - destruct (p c) eqn:Hp; split; intros H.
    + inversion H; subst. constructor. exact Hp.
    + inversion H; subst. constructor.
    + inversion H.
    + inversion H; subst. congruence.
  - assert (Hhead : matches (Seq (derive c r1) r2) s →
                    matches (Seq r1 r2) (c :: s)).
    { intros H. apply matches_Seq_inv in H as (s1 & s2 & -> & H1 & H2).
      apply IH1 in H1. apply (matches_Seq _ _ (c :: s1) s2 H1 H2). }
    assert (Hback : matches (Seq r1 r2) (c :: s) →
                    matches (Seq (derive c r1) r2) s
                    ∨ (matches r1 [] ∧ matches (derive c r2) s)).
    { intros H. apply matches_Seq_inv in H as (s1 & s2 & Heq & H1 & H2).
      destruct s1 as [|c' s1]; simpl in Heq.
      - right. subst s2. split; [exact H1 | apply IH2; exact H2].
      - injection Heq as <- ->. left. constructor; [apply IH1; exact H1 | exact H2]. }
    destruct (nullable r1) eqn:Hnull; split; intros H.
    + inversion H; subst; [auto |].
      apply nullable_matches in Hnull.
      apply (matches_Seq _ _ [] (c :: s) Hnull). apply IH2. assumption.
    + destruct (Hback H) as [H'|[_ H']];
        [apply matches_Alt_l | apply matches_Alt_r]; exact H'.
    + auto.
    + destruct (Hback H) as [H'|[H' _]]; [exact H' |].
      apply nullable_matches in H'. congruence.
  - split; intros H; inversion H; subst.
    + apply matches_Alt_l, IH1. assumption.
    + apply matches_Alt_r, IH2. assumption.
    + apply matches_Alt_l, IH1. assumption.
    + apply matches_Alt_r, IH2. assumption.
  - split; intros H.
    + apply matches_Seq_inv in H as (s1 & s2 & -> & H1 & H2).
      apply IH in H1. apply (matches_Star_more _ (c :: s1) s2 H1 H2).
    + apply matches_Star_cons in H as (s1 & s2 & -> & H1 & H2).
      constructor; [apply IH; exact H1 | exact H2].
Qed.

(** [test] decides the language of the pattern. *)
Lemma test_matches s : ∀ r, test r s = true ↔ matches r s.
Proof.
  induction s as [|c s IH]; intros r; simpl.
  - apply nullable_matches.
  - rewrite IH. apply derive_matches.
Qed.

Lemma matches_Star_Class p s :
  matches (Star (Class p)) s ↔ Forall (fun c => p c = true) s.
Proof.
  split.
  - remember (Star (Class p)) as q eqn:Hq. intros H. revert Hq.
    induction H as [| | | | | | r s1 s2 H1 _ H2 IH2]; try discriminate.
    + constructor.
    + intros Hq. injection Hq as ->. inversion H1; subst.
      constructor; [assumption | apply IH2; reflexivity].
  - induction 1 as [|c s Hc _ IH]; [constructor |].
    apply (matches_Star_more _ [c] s); [constructor; exact Hc | exact IH].
Qed.

Lemma matches_Plus_Class p s :
  matches (Plus (Class p)) s ↔ s ≠ [] ∧ Forall (fun c => p c = true) s.
Proof.
  unfold Plus. split.
  - intros H. apply matches_Seq_inv in H as (s1 & s2 & -> & H1 & H2).
    inversion H1; subst. apply matches_Star_Class in H2.
    split; [discriminate | constructor; assumption].
  - intros [Hne Hall]. destruct Hall as [|c s Hc Hall]; [contradiction |].
    apply (matches_Seq _ _ [c] s); [constructor; exact Hc |].
    apply matches_Star_Class. exact Hall.
Qed.

Lemma matches_one n s : matches (Class (N.eqb n)) s ↔ s = [n].
Proof.
  split.
  - inversion 1 as [| ? c Hc | | | | |]; subst. apply N.eqb_eq in Hc. subst. reflexivity.
  - intros ->. constructor. apply N.eqb_refl.
Qed.

Lemma plain_not_at s :
  Forall (fun c => plain c = true) s → count_occ N.eq_dec s at_sign = 0%nat.
Proof.
  intros Hall. apply count_occ_not_In. intros Hin.
  rewrite Forall_forall in Hall. apply list_elem_of_In in Hin.
  specialize (Hall _ Hin). vm_compute in Hall. discriminate.
Qed.

Lemma plain_not_white s :
  Forall (fun c => plain c = true) s → Forall (fun c => white_space c = false) s.
Proof.
  intros Hall. eapply Forall_impl; [exact Hall |].
  intros c. unfold plain.
  destruct (white_space c); [discriminate | reflexivity].
Qed.

(** The pattern accepts exactly the strings [l @ m . r] in which [l], [m]
    and [r] are not empty and hold neither white space nor an at sign (they
    may hold dots).  So an accepted string has exactly one at sign, no white
    space and at least five code units, and it stays accepted when a plain
    character is put in front of it or behind it. *)
Theorem email_pattern_accepts (s : list N) :
  (test email s = true ↔
   ∃ l m r, s = (l ++ at_sign :: m ++ dot :: r)%list
            ∧ l ≠ [] ∧ m ≠ [] ∧ r ≠ []
            ∧ Forall (fun c => plain c = true) (l ++ m ++ r)%list)
  ∧ (test email s = true →
     count_occ N.eq_dec s at_sign = 1%nat
     ∧ Forall (fun c => white_space c = false) s
     ∧ (5 <= length s)%nat
     ∧ ∀ c, plain c = true →
            test email (c :: s) = true ∧ test email (s ++ [c])%list = true).
Proof.
  assert (Hiff : ∀ t, test email t = true ↔
            ∃ l m r, t = (l ++ at_sign :: m ++ dot :: r)%list
                     ∧ l ≠ [] ∧ m ≠ [] ∧ r ≠ []
                     ∧ Forall (fun c => plain c = true) (l ++ m ++ r)%list).
  { intros t. rewrite test_matches. unfold email. split.
    - intros H.
      apply matches_Seq_inv in H as (l & t1 & -> & Hl & H).
      apply matches_Seq_inv in H as (a & t2 & -> & Ha & H).
      apply matches_Seq_inv in H as (m & t3 & -> & Hm & H).
      apply matches_Seq_inv in H as (d & r & -> & Hd & Hr).
      apply matches_one in Ha, Hd. subst a d.
      apply matches_Plus_Class in Hl as [Hl Hl'], Hm as [Hm Hm'], Hr as [Hr Hr'].
      exists l, m, r. split; [reflexivity |].
      split; [exact Hl |]. split; [exact Hm |]. split; [exact Hr |].
      apply Forall_app. split; [exact Hl' |].
      apply Forall_app. split; assumption.
    - intros (l & m & r & -> & Hl & Hm & Hr & Hall).
      apply Forall_app in Hall as [Hl' Hall].
      apply Forall_app in Hall as [Hm' Hr'].
      constructor; [apply matches_Plus_Class; split; assumption |].
      apply (matches_Seq _ _ [at_sign]); [apply matches_one; reflexivity |].
      constructor; [apply matches_Plus_Class; split; assumption |].
      apply (matches_Seq _ _ [dot]); [apply matches_one; reflexivity |].
      apply matches_Plus_Class; split; assumption. }
  split; [apply Hiff |].
  intros H. apply Hiff in H as (l & m & r & -> & Hl & Hm & Hr & Hall).
  pose proof Hall as Hall'.
  apply Forall_app in Hall as [Hl' Hall].
  apply Forall_app in Hall as [Hm' Hr'].
  split; [| split; [| split]].
  - rewrite count_occ_app, count_occ_cons_eq by reflexivity.
    rewrite count_occ_app, count_occ_cons_neq by discriminate.
    rewrite !plain_not_at by assumption. reflexivity.
  - apply Forall_app. split; [apply plain_not_white; exact Hl' |].
    constructor; [reflexivity |].
    apply Forall_app. split; [apply plain_not_white; exact Hm' |].
    constructor; [reflexivity | apply plain_not_white; exact Hr'].
  - rewrite length_app. simpl. rewrite length_app. simpl.
    destruct l; [contradiction |]. destruct m; [contradiction |].
    destruct r; [contradiction |]. simpl. lia.
  - intros c Hc. split; apply Hiff.
    + exists (c :: l), m, r.
      split; [reflexivity |]. split; [discriminate |].
      split; [exact Hm |]. split; [exact Hr |].
      constructor; assumption.
    + exists l, m, (r ++ [c])%list.
      split; [rewrite <- !app_assoc; simpl; rewrite <- app_assoc; reflexivity |].
      split; [exact Hl |]. split; [exact Hm |].
      split; [destruct r; discriminate |].
      apply Forall_app. split; [exact Hl' |].
      apply Forall_app. split; [exact Hm' |].
      apply Forall_app. split; [exact Hr' | constructor; [exact Hc | constructor]].
Qed.

End Email.

(** ** The spinner *)

(** Between two actions [isLoading] is off: whatever was done before, with
    whatever answers, [App] shows its routes and not the spinner.  (The
    spinner is what stays on the screen when a sign-in never settles.) *)
Theorem spinner_only_during_an_action server clock w :
  reachable server clock w →
  isLoading (store w) = false ∧ ∃ routes, App (store w) = Routes routes.
Proof.
  intros Hw.
  assert (Hoff : isLoading (store w) = false).
  { assert (Hcall : ∀ fuel config,
              preserves (fun w => isLoading (store w) = false)
                (api_call server clock fuel config)).
    { intros fuel config.
      apply (api_call_preserves server clock
               (fun w => isLoading (store w) = false)); intros; assumption. }
    assert (Hsign : ∀ fuel (path : string) (body : Json) (welcome failure : string)
                      w0 r w',
              sign_in (api_call server clock fuel) path body welcome failure w0 =
                Some (r, w') →
              isLoading (store w') = false).
    { intros fuel path body welcome failure w0 r w'.
      rewrite sign_in_cases. cbv zeta.
      destruct (api_call server clock fuel
                  (call_config POST path (Some body) no_config)
                  (set_store (with_isLoading true) w0)) as [[[response|e] w1]|];
        [| | discriminate].
      - destruct (resp_data response); intros H; injection H as _ <-; reflexivity.
      - intros H; injection H as _ <-; reflexivity. }
    induction Hw as
      [ | w _ IH | w _ IH
      | w fuel email password r w' _ IH H
      | w fuel email password fullName r w' _ IH H
      | w fuel token r w' _ IH H
      | w fuel r w' _ IH H
      | w fuel r w' _ IH H
      | w fuel profileData r w' _ IH H
      | w fuel config r w' _ IH H
      | w fuel i r w' _ IH H ].
    - reflexivity.
    - unfold reload, initialize. simpl.
      destruct (truthy (accessToken (store w))); reflexivity.
    - unfold initialize. destruct (truthy (accessToken (store w))); exact IH.
    - exact (Hsign _ _ _ _ _ _ _ _ H).
    - exact (Hsign _ _ _ _ _ _ _ _ H).
    - exact (Hsign _ _ _ _ _ _ _ _ H).
    - destruct (logout_clears server clock fuel w r w' H) as [_ [Hstore _]].
      rewrite Hstore. reflexivity.
    - refine (refreshAccessToken_preserves server clock
                (fun w => isLoading (store w) = false) _ _ _ _ (Hcall fuel)
                _ _ _ IH H); intros; assumption.
    - refine (updateProfile_preserves (fun w => isLoading (store w) = false) _ _ _
                (Hcall fuel) _ _ _ _ IH H); intros; assumption.
    - exact (Hcall fuel config _ _ _ IH H).
    - refine (resume_preserves server clock (fun w => isLoading (store w) = false)
                _ _ _ _ _ _ _ _ (Hcall fuel) _ _ _ _ IH H);
        intros; (assumption || reflexivity). }
  split; [exact Hoff |]. unfold App. rewrite Hoff. eexists. reflexivity.
Qed.

Lemma spinner_only_during_an_action_witness :
  isLoading (store logged_in) = false ∧ ∃ routes, App (store logged_in) = Routes routes.
Proof.
  exact (spinner_only_during_an_action sign_in_accepted wall_clock logged_in
           reachable_logged_in).
Defined.

(** ** Clearing the dashboard *)

Section Clearing.

Import useDashboardStore.

Variable server : nat → Config → Outcome.
Variable clock : nat → Z.

(** [clearDashboard] cancels nothing.  Called while the request of a
    selection is under way, it leaves [isLoading] on, and the answer that
    comes later puts its data back in [dashboardData] although no page is
    selected any more.  A new date range then sends nothing, for want of a
    page. *)
Theorem clearDashboard_does_not_cancel (a : Api) page start end_ d w d1 w1 x r :
  setSelectedPage server clock page d w = (d1, w1, Some x) →
  succeeded x.2 = Some r →
  ∃ d2,
    fetch_end server clock a x (clearDashboard d1) w1 = Some (d2, w1)
    ∧ isLoading (clearDashboard d1) = true
    ∧ dashboardData (clearDashboard d1) = None
    ∧ selectedPage d2 = None
    ∧ dashboardData d2 = resp_data r
    ∧ isLoading d2 = false
    ∧ setDateRange server clock start end_ d2 w1 =
        (mkState (resp_data r) None (mkDateRange start end_) false None, w1, None).
Proof.
  intros Hset Hr. unfold fetch_end.
  rewrite (settle_success server clock a x.1 x.2 r w1 Hr).
  eexists. split; [reflexivity |].
  unfold setSelectedPage in Hset.
  destruct (truthy page); [| discriminate].
  destruct (fetch_begin_request server clock (prop "page_id" page)
              (mkState (dashboardData d) page (dateRange d) (isLoading d) (error d)) w)
    as (Hbegin & _).
  rewrite Hbegin in Hset. injection Hset as <- _ _.
  repeat split.
Qed.

End Clearing.

Lemma clearDashboard_does_not_cancel_witness :
  ∃ d2,
    useDashboardStore.fetch_end insights_server wall_clock
      (api_call insights_server wall_clock 0)
      (prepare wall_clock (dashboard_request "p1") signed_in,
       answer insights_server wall_clock (dashboard_request "p1") signed_in)
      (useDashboardStore.clearDashboard one_selected) one_asked = Some (d2, one_asked)
    ∧ useDashboardStore.selectedPage d2 = None
    ∧ useDashboardStore.dashboardData d2 = Some (JStr "insights of p1").
Proof.
  destruct (clearDashboard_does_not_cancel insights_server wall_clock
              (api_call insights_server wall_clock 0)
              page_one 0 0 fresh_dashboard signed_in
              one_selected one_asked
              (prepare wall_clock (dashboard_request "p1") signed_in,
               answer insights_server wall_clock (dashboard_request "p1") signed_in)
              (mkResponse 200 ∅ (Some (JStr "insights of p1")))
              eq_refl eq_refl)
    as (d2 & Hend & _ & _ & Hselected & Hdata & _).
  exists d2. split; [exact Hend |]. split; [exact Hselected | exact Hdata].
Defined.
